(** * tslib, plugins/wmtouch-raw.c: the WM_TOUCH raw input module

    A shallow embedding of the Windows touch plugin of tslib and the
    properties of its specification.

    Conventions.
    - Machine integers are [Z] with the conversions written out.  Widths are
      those of 64-bit Windows (LLP64): [int], [long], [LONG] are 32-bit signed,
      [unsigned int], [unsigned long], [DWORD] are 32-bit unsigned, [size_t]
      and [WPARAM] are 64-bit unsigned.
    - A pointer to a heap block is [option]: [None] is the null pointer,
      [Some l] a live block holding the records [l].
    - A computation in [option] that yields [None] has undefined behaviour
      in C (an access through a null pointer or past the end of a block). *)

From stdpp Require Import base option list strings.
From Stdlib Require Import ZArith Lia Ascii.

Open Scope Z_scope.

(** ** Machine integers *)

Definition INT_MAX : Z := 2147483647.
Definition ULONG_MAX : Z := 4294967295.

(** Conversion to a 32-bit unsigned type. *)
Definition to_uint32 (z : Z) : Z := z mod 2 ^ 32.

(** Conversion to a 32-bit signed type (two's complement). *)
Definition to_int32 (z : Z) : Z := (z + 2 ^ 31) mod 2 ^ 32 - 2 ^ 31.

(** ** Platform types and constants (winuser.h) *)

Definition WM_TOUCH : Z := 0x0240.
Definition TOUCHEVENTF_MOVE : Z := 0x0001.
Definition TOUCHEVENTF_DOWN : Z := 0x0002.
Definition TOUCHEVENTF_UP : Z := 0x0004.

(** [sizeof(TOUCHINPUT)] *)
Definition sizeof_TOUCHINPUT : Z := 48.

Record TOUCHINPUT := mkTOUCHINPUT {
  ti_x : Z;          (* LONG x *)
  ti_y : Z;          (* LONG y *)
  hSource : Z;
  dwID : Z;
  dwFlags : Z;       (* DWORD *)
  dwMask : Z;
  dwTime : Z;        (* DWORD, milliseconds *)
  dwExtraInfo : Z;
  cxContact : Z;
  cyContact : Z
}.

(** A record as [memset (.., 0, ..)] leaves it. *)
Definition zero_TOUCHINPUT : TOUCHINPUT := mkTOUCHINPUT 0 0 0 0 0 0 0 0 0 0.

(** A record of a block that [malloc] has just returned.  Its contents are
    indeterminate in C; a fixed bit pattern stands for them, and the handler
    clears the block before any read. *)
Definition fresh_TOUCHINPUT : TOUCHINPUT :=
  mkTOUCHINPUT (-842150451) (-842150451) 0xCDCDCDCDCDCDCDCD 0xCDCDCDCD 0xCDCDCDCD
    0xCDCDCDCD 0xCDCDCDCD 0xCDCDCDCDCDCDCDCD 0xCDCDCDCD 0xCDCDCDCD.

(** A contact with the four fields the plugin reads; the others are zero. *)
Definition contact (px py flags ms : Z) : TOUCHINPUT :=
  mkTOUCHINPUT px py 0 0 flags 0 ms 0 0 0.

(** ** Sample types of the consuming pipeline (tslib.h) *)

Record ts_sample := mk_ts_sample {
  samp_x : Z;
  samp_y : Z;
  samp_pressure : Z;
  samp_tv_sec : Z;
  samp_tv_usec : Z
}.

Record ts_sample_mt := mk_ts_sample_mt {
  mt_x : Z;
  mt_y : Z;
  mt_pressure : Z;
  mt_slot : Z;
  mt_tracking_id : Z;
  mt_tv_sec : Z;
  mt_tv_usec : Z;
  mt_pen_down : Z;
  mt_valid : Z
}.

(** ** The adapter state, [struct tslib_input] *)

Record tslib_input := mk_tslib_input {
  current_x : Z;
  current_y : Z;
  current_p : Z;
  grab_events : Z;
  prevWndProc : Z;                      (* WNDPROC: a function pointer *)
  buf : option (list TOUCHINPUT);       (* TOUCHINPUT *buf *)
  slot : Z;
  max_slots : Z;                        (* int *)
  nr : Z;
  pen_down : Z;
  last_fd : Z;
  mt : Z;
  no_pressure : Z;
  type_a : Z;
  last_pressure : option (list Z);
  special_device : Z
}.

Definition set_buf (b : option (list TOUCHINPUT)) (i : tslib_input) : tslib_input :=
  mk_tslib_input (current_x i) (current_y i) (current_p i) (grab_events i)
    (prevWndProc i) b (slot i) (max_slots i) (nr i) (pen_down i) (last_fd i)
    (mt i) (no_pressure i) (type_a i) (last_pressure i) (special_device i).

Definition set_max_slots (n : Z) (i : tslib_input) : tslib_input :=
  mk_tslib_input (current_x i) (current_y i) (current_p i) (grab_events i)
    (prevWndProc i) (buf i) (slot i) n (nr i) (pen_down i) (last_fd i)
    (mt i) (no_pressure i) (type_a i) (last_pressure i) (special_device i).

Definition set_grab_events (g : Z) (i : tslib_input) : tslib_input :=
  mk_tslib_input (current_x i) (current_y i) (current_p i) g
    (prevWndProc i) (buf i) (slot i) (max_slots i) (nr i) (pen_down i) (last_fd i)
    (mt i) (no_pressure i) (type_a i) (last_pressure i) (special_device i).

Definition set_prevWndProc (p : Z) (i : tslib_input) : tslib_input :=
  mk_tslib_input (current_x i) (current_y i) (current_p i) (grab_events i)
    p (buf i) (slot i) (max_slots i) (nr i) (pen_down i) (last_fd i)
    (mt i) (no_pressure i) (type_a i) (last_pressure i) (special_device i).

(** [i->buf[j]]: undefined through a null pointer or outside the block. *)
Definition buf_at (i : tslib_input) (j : Z) : option TOUCHINPUT :=
  b ← buf i;
  if 0 <=? j then b !! Z.to_nat j else None.

(** ** Sample normalisation *)

(** [r.dwFlags & TOUCHEVENTF_DOWN || r.dwFlags & TOUCHEVENTF_MOVE] *)
Definition active (r : TOUCHINPUT) : bool :=
  negb (Z.land (dwFlags r) TOUCHEVENTF_DOWN =? 0)
  || negb (Z.land (dwFlags r) TOUCHEVENTF_MOVE =? 0).

(** [tv.tv_usec = dwTime * 1000]: the product is taken in [unsigned long] and
    converted to the [long] field. *)
Definition usec_of (r : TOUCHINPUT) : Z := to_int32 (to_uint32 (dwTime r * 1000)).

(** [tv.tv_sec = dwTime / 1000] *)
Definition sec_of (r : TOUCHINPUT) : Z := to_int32 (dwTime r / 1000).

(** The four assignments to [samp[0]] of the single-point read. *)
Definition fill_sample (s : ts_sample) (r : TOUCHINPUT) : ts_sample :=
  mk_ts_sample (ti_x r) (ti_y r) (samp_pressure s) (sec_of r) (usec_of r).

(** The four assignments to [samp[0][k]] of the multi-point read. *)
Definition fill_sample_mt (s : ts_sample_mt) (r : TOUCHINPUT) : ts_sample_mt :=
  mk_ts_sample_mt (ti_x r) (ti_y r) (mt_pressure s) (mt_slot s) (mt_tracking_id s)
    (sec_of r) (usec_of r) (mt_pen_down s) (mt_valid s).

(** [ts_mswin_input_read]: the sample as the call leaves it and the return
    value.  The argument [nr] of the C function is unused. *)
Definition ts_mswin_input_read (i : tslib_input) (samp : ts_sample)
  : option (ts_sample * Z) :=
  if max_slots i =? 0 then Some (samp, 0)
  else
    r ← buf_at i 0;
    if active r then Some (fill_sample samp r, 1)
    else Some (samp, 1).

(** [samp[0][k] = v]: a store into the caller's array, undefined outside it. *)
Definition store_at {A} (samp : list A) (k : Z) (f : A → A) : option (list A) :=
  if 0 <=? k then
    s ← samp !! Z.to_nat k;
    Some (<[Z.to_nat k := f s]> samp)
  else None.

(** The loop of [ts_mswin_input_read_mt], from the values [j] and [k] on.
    The loop test is the C one; [fuel] bounds the number of iterations. *)
Fixpoint read_mt_loop (fuel : nat) (i : tslib_input) (samp : list ts_sample_mt)
    (req : Z) (j k : Z) : option (list ts_sample_mt * Z) :=
  if (j <? req) && (j <? max_slots i) then
    match fuel with
    | O => None
    | S fuel' =>
        r ← buf_at i j;
        if active r then
          samp' ← store_at samp k (λ s, fill_sample_mt s r);
          read_mt_loop fuel' i samp' req (j + 1) (k + 1)
        else read_mt_loop fuel' i samp req (j + 1) k
    end
  else Some (samp, k).

(** [ts_mswin_input_read_mt]: [samp] is the caller's array [samp[0]], [req]
    the argument [max_slots].  Every iteration has [j < req], so [req]
    iterations of fuel are enough. *)
Definition ts_mswin_input_read_mt (i : tslib_input) (samp : list ts_sample_mt)
    (req : Z) : option (list ts_sample_mt * Z) :=
  read_mt_loop (Z.to_nat req) i samp req 0 0.

(** The state [wmtouch_mod_init] builds before it parses the options. *)
Definition initial_input : tslib_input :=
  mk_tslib_input 0 0 0 0 0 None 0 0 0 0 (-2) 0 0 0 None 0.

(** The buffer holds exactly [max_slots] records (no buffer when that is 0). *)
Definition buffer_ok (i : tslib_input) : Prop :=
  0 <= max_slots i <= INT_MAX ∧
  match buf i with
  | Some l => Z.of_nat (length l) = max_slots i
  | None => max_slots i = 0
  end.

(** ** The window procedure *)

(** Conversion to [size_t]. *)
Definition to_size_t (z : Z) : Z := z mod 2 ^ 64.

(** What the platform answers during one call of the handler. *)
Record platform := mk_platform {
  (** [malloc (bytes)]: whether the allocation succeeds. *)
  os_malloc : Z → bool;
  (** [GetTouchInputInfo (handle, cInputs, ..)]: the contacts of the batch,
      or [None] when the call returns FALSE. *)
  os_GetTouchInputInfo : Z → Z → option (list TOUCHINPUT);
  (** [CallWindowProc (prev, hwnd, uMsg, wParam, lParam)]: its result. *)
  os_CallWindowProc : Z → Z → Z → Z → Z → Z
}.

(** Calls into the window system and frees of the adapter state, in order. *)
Inductive call :=
  | CloseTouchInputHandle (h : Z)
  | CallWindowProc (prev hwnd uMsg wParam lParam : Z)
  | SetWindowLongPtr_USERDATA (hwnd : Z)
  | SetWindowLongPtr_WNDPROC (hwnd : Z)
  | free_tslib_input.

Record message := mk_message {
  hwnd : Z;
  uMsg : Z;
  wParam : Z;
  lParam : Z
}.

(** [memset (b, 0, bytes)]: clears the records the byte count covers.  A
    count of zero touches nothing; otherwise the block must be live and at
    least that large. *)
Definition memset_zero (b : option (list TOUCHINPUT)) (bytes : Z)
  : option (option (list TOUCHINPUT)) :=
  if bytes =? 0 then Some b
  else
    l ← b;
    if bytes <=? Z.of_nat (length l) * sizeof_TOUCHINPUT then
      let n := Z.to_nat (bytes / sizeof_TOUCHINPUT) in
      Some (Some (replicate n zero_TOUCHINPUT ++ drop n l))
    else None.

(** The platform stores [recs] at the start of the block [b]. *)
Definition write_block (recs : list TOUCHINPUT) (b : option (list TOUCHINPUT))
  : option (option (list TOUCHINPUT)) :=
  match b with
  | Some l =>
      if (length recs <=? length l)%nat then Some (Some (recs ++ drop (length recs) l))
      else None
  | None =>
      match recs with
      | [] => Some None
      | _ :: _ => None
      end
  end.

(** The statements of [case WM_TOUCH] after the growth block: [memset],
    then [GetTouchInputInfo] for [ni] contacts.  Yields the state and
    [handled]. *)
Definition unpack_batch (P : platform) (i : tslib_input) (ni h : Z)
  : option (tslib_input * bool) :=
  b ← memset_zero (buf i) (to_size_t (to_size_t (max_slots i) * sizeof_TOUCHINPUT));
  match os_GetTouchInputInfo P h ni with
  | Some recs =>
      b' ← write_block (take (Z.to_nat ni) recs) b;
      Some (set_buf b' i, true)
  | None => Some (set_buf b i, false)
  end.

(** [case WM_TOUCH]: yields the state and [handled]. *)
Definition touch_case (P : platform) (i : tslib_input) (wP lP : Z)
  : option (tslib_input * bool) :=
  let ni := to_uint32 wP in
  if to_uint32 (max_slots i) <? ni then
    (* free(i->buf); i->buf = malloc(ni * sizeof(TOUCHINPUT)); *)
    if os_malloc P (to_size_t (ni * sizeof_TOUCHINPUT)) then
      let i1 := set_buf (Some (replicate (Z.to_nat ni) fresh_TOUCHINPUT)) i in
      unpack_batch P (set_max_slots (to_int32 ni) i1) ni lP
    else
      (* if (!i->buf) break; *)
      Some (set_buf None i, false)
  else unpack_batch P i ni lP.

(** [tslibWndProc]: the state after the call, the calls made and the
    result. *)
Definition tslibWndProc (P : platform) (i : tslib_input) (m : message)
  : option (tslib_input * list call * Z) :=
  '(i', handled) ← (if uMsg m =? WM_TOUCH then touch_case P i (wParam m) (lParam m)
                    else Some (i, false));
  if handled : bool then
    Some (i', [CloseTouchInputHandle (lParam m)], 0)
  else
    Some (i', [CallWindowProc (prevWndProc i') (hwnd m) (uMsg m) (wParam m) (lParam m)],
          os_CallWindowProc P (prevWndProc i') (hwnd m) (uMsg m) (wParam m) (lParam m)).

(** A sequence of deliveries to the handler: the final state and, per
    message, the calls made and the result. *)
Fixpoint run_messages (ds : list (platform * message)) (i : tslib_input)
  : option (tslib_input * list (list call * Z)) :=
  match ds with
  | [] => Some (i, [])
  | (P, m) :: ds' =>
      '(i1, tr, res) ← tslibWndProc P i m;
      '(i2, outs) ← run_messages ds' i1;
      Some (i2, (tr, res) :: outs)
  end.

(** The contact count the handler takes from a message. *)
Definition contact_count (m : message) : Z := to_uint32 (wParam m).

(** The message was handled: its only call closed the touch handle. *)
Definition handled_output (o : list call * Z) : bool :=
  match o with
  | ([CloseTouchInputHandle _], _) => true
  | _ => false
  end.

(** A platform on which allocation succeeds iff [ok] and which unpacks
    [batch]. *)
Definition platform_of (ok : bool) (batch : option (list TOUCHINPUT)) : platform :=
  mk_platform (λ _, ok) (λ _ _, batch) (λ _ _ _ _ _, 77).

Definition touch_message (n : Z) : message := mk_message 1 WM_TOUCH n 9.

Definition scenario_batch : list TOUCHINPUT :=
  [contact 10 20 TOUCHEVENTF_DOWN 1500;
   contact 30 40 TOUCHEVENTF_UP 1500;
   contact 50 60 TOUCHEVENTF_MOVE 1500].

Definition blank_mt : ts_sample_mt := mk_ts_sample_mt 0 0 0 0 0 0 0 0 0.

(** ** Option parsing and module initialisation *)

Definition GRAB_EVENTS_WANTED : Z := 1.
Definition ERANGE : Z := 34.

(** The C library's [isspace] in the "C" locale. *)
Definition isspace (c : ascii) : bool :=
  let n := Z.of_nat (nat_of_ascii c) in
  (n =? 32) || ((9 <=? n) && (n <=? 13)).

Fixpoint skip_space (s : string) : string :=
  match s with
  | String c s' => if isspace c then skip_space s' else s
  | EmptyString => s
  end.

(** The value of a character as a digit, in any base up to 36. *)
Definition digit_value (c : ascii) : option Z :=
  let n := Z.of_nat (nat_of_ascii c) in
  if (48 <=? n) && (n <=? 57) then Some (n - 48)
  else if (97 <=? n) && (n <=? 122) then Some (n - 97 + 10)
  else if (65 <=? n) && (n <=? 90) then Some (n - 65 + 10)
  else None.

(** The number the longest prefix of digits of [base] spells, after [acc]. *)
Fixpoint digits_value (base : Z) (s : string) (acc : Z) : Z :=
  match s with
  | String c s' =>
      match digit_value c with
      | Some d => if d <? base then digits_value base s' (acc * base + d) else acc
      | None => acc
      end
  | EmptyString => acc
  end.

Definition is_digit_of (base : Z) (c : ascii) : bool :=
  match digit_value c with
  | Some d => d <? base
  | None => false
  end.

(** The number [strtoul (s, NULL, 0)] reads: whether it is negated, and the
    value of its digits.  White space is skipped, a sign is accepted, the
    base follows the prefix ([0x]: 16, [0]: 8, else 10); a string without
    digits gives 0. *)
Definition scan_number (s : string) : bool * Z :=
  let s1 := skip_space s in
  let '(neg, s2) :=
    match s1 with
    | String "-" r => (true, r)
    | String "+" r => (false, r)
    | _ => (false, s1)
    end in
  let '(base, s3) :=
    match s2 with
    | String "0" (String c (String h r)) =>
        if (Ascii.eqb c "x" || Ascii.eqb c "X") && is_digit_of 16 h
        then (16, String h r) else (8, s2)
    | String "0" _ => (8, s2)
    | _ => (10, s2)
    end in
  (neg, digits_value base s3 0).

(** The C library's [strtoul (s, NULL, 0)] with a 32-bit [unsigned long]:
    the value and [errno] after the call.  A value above [ULONG_MAX] gives
    [ULONG_MAX] and sets [errno] to [ERANGE]; otherwise [errno] is left
    alone. *)
Definition strtoul (s : string) (errno : Z) : Z * Z :=
  let '(neg, v) := scan_number s in
  if ULONG_MAX <? v then (ULONG_MAX, ERANGE)
  else (if neg : bool then to_uint32 (- v) else v, errno).

(** [parse_raw_grab]: the return value, the state and [errno] after the
    call.  [data] is the tag of the option table, [errno] the value on
    entry. *)
Definition parse_raw_grab (i : tslib_input) (str : string) (data : Z) (errno : Z)
  : Z * tslib_input * Z :=
  let err := errno in
  let '(v, errno1) := strtoul str errno in
  if (v =? ULONG_MAX) && (errno1 =? ERANGE) then (-1, i, errno1)
  else
    (* errno = err; switch ((int)(intptr_t)data) *)
    if to_int32 data =? 1 then
      (0, if v =? 0 then i else set_grab_events GRAB_EVENTS_WANTED i, err)
    else (-1, i, err).

(** An entry of the option table, [struct tslib_vars]. *)
Record tslib_vars := mk_tslib_vars {
  name : string;
  data : Z;
  fn : tslib_input → string → Z → Z → Z * tslib_input * Z
}.

Definition raw_vars : list tslib_vars :=
  [mk_tslib_vars "grab_events" 1 parse_raw_grab].

(** Modelled from the spec: [tslib_parse_vars], the generic option parser of
    the host library, whose source is not part of the plugin.  The
    configuration is taken as the key/value options it spells, in order.  An
    option whose key is not in the table is a configuration error; an option
    of the table is passed to its parse function with its value and tag, and
    a non-zero result of that function is a configuration error, which ends
    the parse.  The result is 0 when every option was accepted. *)
Fixpoint tslib_parse_vars (i : tslib_input) (vars : list tslib_vars)
    (params : list (string * string)) (errno : Z) : Z * tslib_input * Z :=
  match params with
  | [] => (0, i, errno)
  | (key, value) :: rest =>
      match list_find (λ v, name v = key) vars with
      | None => (-1, i, errno)
      | Some (_, v) =>
          let '(ret, i1, errno1) := fn v i value (data v) errno in
          if ret =? 0 then tslib_parse_vars i1 vars rest errno1
          else (ret, i1, errno1)
      end
  end.

(** [wmtouch_mod_init]: the module ([None] is the null result) and the calls
    made.  [alloc_ok] tells whether [malloc] of the state succeeds, [fd] is
    the window handle [dev->fd], [old_proc] the window procedure that
    [SetWindowLongPtr (.., GWLP_WNDPROC, ..)] replaces and returns. *)
Definition wmtouch_mod_init (alloc_ok : bool) (fd old_proc : Z)
    (params : list (string * string)) (errno : Z)
  : option tslib_input * list call :=
  if alloc_ok then
    let '(ret, i, _) := tslib_parse_vars initial_input raw_vars params errno in
    if ret =? 0 then
      (Some (set_prevWndProc old_proc i),
       [SetWindowLongPtr_USERDATA fd; SetWindowLongPtr_WNDPROC fd])
    else (None, [free_tslib_input])
  else (None, []).

(** Successive calls of [parse_raw_grab] for the [grab_events] option, one
    per value, whatever each call returns. *)
Fixpoint parse_grab_sequence (values : list string) (i : tslib_input) (errno : Z)
  : tslib_input * Z :=
  match values with
  | [] => (i, errno)
  | str :: rest =>
      let '(_, i1, errno1) := parse_raw_grab i str 1 errno in
      parse_grab_sequence rest i1 errno1
  end.

(** The samples a scan leaves in the caller's array: the records [act], in
    order, stored from slot [k] on. *)
Fixpoint write_samples (samp : list ts_sample_mt) (k : nat) (act : list TOUCHINPUT)
  : list ts_sample_mt :=
  match act with
  | [] => samp
  | r :: rs =>
      match samp !! k with
      | Some s => write_samples (<[k := fill_sample_mt s r]> samp) (S k) rs
      | None => samp
      end
  end.

(** The records the multi-point read scans: the first [min (req, max_slots)]
    of the buffer. *)
Definition scanned (i : tslib_input) (req : Z) : list TOUCHINPUT :=
  take (Z.to_nat (Z.min req (max_slots i))) (default [] (buf i)).

(** The part of a sample the reads assign: x, y, seconds, microseconds. *)
Definition written (s : ts_sample_mt) : Z * Z * Z * Z :=
  (mt_x s, mt_y s, mt_tv_sec s, mt_tv_usec s).

(** A block of [cap] records that was cleared and then received the records
    [w] at its start. *)
Definition filled (cap : Z) (w : list TOUCHINPUT) : list TOUCHINPUT :=
  w ++ replicate (Z.to_nat cap - length w) zero_TOUCHINPUT.

Definition is_some {A} (o : option A) : bool :=
  match o with
  | Some _ => true
  | None => false
  end.

(** The capacity field holds a non-negative [int]. *)
Definition capacity_ok (i : tslib_input) : Prop := 0 <= max_slots i <= INT_MAX.

(** The state [unpack_batch] leaves. *)
Definition unpacked_state (P : platform) (i : tslib_input) (ni h : Z) : tslib_input :=
  set_buf ((λ _, filled (max_slots i)
                   (take (Z.to_nat ni) (default [] (os_GetTouchInputInfo P h ni))))
           <$> buf i) i.

(** The state after the growth block of [case WM_TOUCH] when the block
    allocates successfully. *)
Definition grown_state (i : tslib_input) (ni : Z) : tslib_input :=
  set_max_slots (to_int32 ni)
    (set_buf (Some (replicate (Z.to_nat ni) fresh_TOUCHINPUT)) i).

(** A value [strtoul] reports as out of range. *)
Definition out_of_range (v : string) : Prop := strtoul v 0 = (ULONG_MAX, ERANGE).

(** The buffer of the scenarios: three contacts, down, up and move, at
    1500 ms, in a buffer of capacity three. *)
Definition scenario_input : tslib_input :=
  set_max_slots 3 (set_buf (Some scenario_batch) initial_input).

(** What a read assigns from a record: x, y, seconds, microseconds. *)
Definition normalized (r : TOUCHINPUT) : Z * Z * Z * Z :=
  (ti_x r, ti_y r, sec_of r, usec_of r).

(** The part of a multi-point sample the reads never assign. *)
Definition unwritten (s : ts_sample_mt) : Z * Z * Z * Z * Z :=
  (mt_pressure s, mt_slot s, mt_tracking_id s, mt_pen_down s, mt_valid s).

(** The largest contact count among a capacity [c] and the [WM_TOUCH]
    messages of a sequence. *)
Fixpoint peak (ds : list (platform * message)) (c : Z) : Z :=
  match ds with
  | [] => c
  | (_, m) :: ds' =>
      peak ds' (if uMsg m =? WM_TOUCH then Z.max c (contact_count m) else c)
  end.

(** The test of the reads as a predicate on records. *)
Abbreviation is_active := (λ r : TOUCHINPUT, Is_true (active r)).

(** * Properties *)

(** ** Machine integers *)

Lemma to_uint32_small z : 0 <= z < 2 ^ 32 → to_uint32 z = z.
Proof. intros H. unfold to_uint32. apply Z.mod_small. exact H. Qed.

Lemma to_int32_small z : - 2 ^ 31 <= z < 2 ^ 31 → to_int32 z = z.
Proof. intros H. unfold to_int32. rewrite Z.mod_small; lia. Qed.

Lemma to_uint32_range z : 0 <= to_uint32 z < 2 ^ 32.
Proof. unfold to_uint32. apply Z.mod_pos_bound. lia. Qed.

Lemma to_int32_high z : 2 ^ 31 <= z < 2 ^ 32 → to_int32 z = z - 2 ^ 32.
Proof.
  intros H. unfold to_int32.
  replace (z + 2 ^ 31) with (z - 2 ^ 31 + 1 * 2 ^ 32) by lia.
  rewrite Z.mod_add by lia. rewrite Z.mod_small; lia.
Qed.

Lemma to_size_t_small z : 0 <= z < 2 ^ 64 → to_size_t z = z.
Proof. intros H. unfold to_size_t. apply Z.mod_small. exact H. Qed.

(** ** The activity test *)

Lemma active_spec r :
  active r = true ↔
  Z.land (dwFlags r) TOUCHEVENTF_DOWN ≠ 0 ∨ Z.land (dwFlags r) TOUCHEVENTF_MOVE ≠ 0.
Proof.
  unfold active. rewrite orb_true_iff, !negb_true_iff, !Z.eqb_neq. tauto.
Qed.

Lemma active_zero : active zero_TOUCHINPUT = false.
Proof. reflexivity. Qed.

(** ** The scan of the multi-point read *)

Lemma write_samples_length act : ∀ samp k,
  length (write_samples samp k act) = length samp.
Proof.
  induction act as [|r rs IH]; intros samp k; simpl; [done|].
  destruct (samp !! k) as [s|]; [|done].
  by rewrite IH, length_insert.
Qed.

Lemma write_samples_before act : ∀ samp k n,
  (n < k)%nat → write_samples samp k act !! n = samp !! n.
Proof.
  induction act as [|r rs IH]; intros samp k n Hn; simpl; [done|].
  destruct (samp !! k) as [s|] eqn:Hs; [|done].
  rewrite IH by lia. apply list_lookup_insert_ne. lia.
Qed.

Lemma write_samples_at act : ∀ samp k n r,
  (k + length act ≤ length samp)%nat →
  act !! n = Some r →
  ∃ s, samp !! (k + n)%nat = Some s ∧
       write_samples samp k act !! (k + n)%nat = Some (fill_sample_mt s r).
Proof.
  induction act as [|r0 rs IH]; intros samp k n r Hlen Hn; [done|].
  simpl in Hlen. simpl.
  destruct (lookup_lt_is_Some_2 samp k) as [s Hs]; [lia|].
  rewrite Hs. destruct n as [|n]; simpl in Hn.
  - injection Hn as ->. rewrite Nat.add_0_r. exists s. split; [done|].
    rewrite write_samples_before by lia.
    apply list_lookup_insert_eq. by eapply lookup_lt_Some.
  - destruct (IH (<[k:=fill_sample_mt s r0]> samp) (S k) n r) as (s' & Hs' & Hw).
    + rewrite length_insert. lia.
    + done.
    + replace (k + S n)%nat with (S k + n)%nat by lia.
      exists s'. split; [|done].
      rewrite list_lookup_insert_ne in Hs' by lia. done.
Qed.

Lemma write_samples_after act : ∀ samp k n,
  (k + length act ≤ n)%nat → write_samples samp k act !! n = samp !! n.
Proof.
  induction act as [|r rs IH]; intros samp k n Hn; simpl; [done|].
  simpl in Hn. destruct (samp !! k) as [s|] eqn:Hs; [|done].
  rewrite IH by lia. apply list_lookup_insert_ne. lia.
Qed.

(** The loop invariant: from [j] and [k] on, the loop stores the active
    records among those left to scan at the slots from [k] on, and returns
    [k] plus their number. *)
Lemma read_mt_loop_spec fuel : ∀ i l samp req j k,
  buf i = Some l →
  Z.of_nat (length l) = max_slots i →
  0 <= k <= j →
  req <= Z.of_nat (length samp) →
  (Z.to_nat (Z.min req (max_slots i) - j) ≤ fuel)%nat →
  let act := filter (λ r, Is_true (active r))
               (take (Z.to_nat (Z.min req (max_slots i) - j)) (drop (Z.to_nat j) l)) in
  read_mt_loop fuel i samp req j k
  = Some (write_samples samp (Z.to_nat k) act, k + Z.of_nat (length act)).
Proof.
  induction fuel as [|fuel IH]; intros i l samp req j k Hb Hl Hk Hreq Hfuel act.
  - subst act. simpl.
    destruct ((j <? req) && (j <? max_slots i)) eqn:Hc.
    + apply andb_true_iff in Hc as [H1%Z.ltb_lt H2%Z.ltb_lt]. lia.
    + replace (Z.to_nat (Z.min req (max_slots i) - j)) with 0%nat by lia.
      simpl. f_equal. f_equal. lia.
  - simpl. destruct ((j <? req) && (j <? max_slots i)) eqn:Hc.
    + apply andb_true_iff in Hc as [H1%Z.ltb_lt H2%Z.ltb_lt].
      destruct (lookup_lt_is_Some_2 l (Z.to_nat j)) as [r Hr]; [lia|].
      assert (Hbuf : buf_at i j = Some r).
      { unfold buf_at. rewrite Hb. simpl.
        destruct (0 <=? j) eqn:H0; [done|]. apply Z.leb_gt in H0. lia. }
      rewrite Hbuf. simpl.
      assert (Hact : act = filter (λ r, Is_true (active r))
                (r :: take (Z.to_nat (Z.min req (max_slots i) - (j + 1)))
                        (drop (Z.to_nat (j + 1)) l))).
      { subst act. f_equal.
        replace (Z.to_nat (Z.min req (max_slots i) - j))
          with (S (Z.to_nat (Z.min req (max_slots i) - (j + 1)))) by lia.
        rewrite (drop_S l r (Z.to_nat j)) by done. simpl.
        by replace (Z.to_nat (j + 1)) with (S (Z.to_nat j)) by lia. }
      rewrite Hact. rewrite filter_cons.
      destruct (active r) eqn:Ha.
      * rewrite decide_True by done.
        destruct (lookup_lt_is_Some_2 samp (Z.to_nat k)) as [s Hs]; [lia|].
        unfold store_at. destruct (0 <=? k) eqn:H0; [|apply Z.leb_gt in H0; lia].
        rewrite Hs. simpl.
        rewrite (IH i l _ req (j + 1) (k + 1) Hb Hl); [| lia | | lia].
        -- simpl. rewrite Hs.
           replace (Z.to_nat (k + 1)) with (S (Z.to_nat k)) by lia.
           f_equal. f_equal. lia.
        -- rewrite length_insert. lia.
      * rewrite decide_False by (by intros []).
        rewrite (IH i l samp req (j + 1) k Hb Hl); [done | lia | lia | lia].
    + subst act.
      assert (Z.min req (max_slots i) - j <= 0).
      { apply andb_false_iff in Hc as [H%Z.ltb_ge | H%Z.ltb_ge]; lia. }
      replace (Z.to_nat (Z.min req (max_slots i) - j)) with 0%nat by lia.
      simpl. f_equal. f_equal. lia.
Qed.

Lemma scanned_length i req :
  Z.of_nat (length (filter is_active (scanned i req))) <= Z.max 0 req.
Proof.
  pose proof (length_filter is_active (scanned i req)) as H.
  unfold scanned in *. rewrite length_take in H. lia.
Qed.

(** The multi-point read on a well-formed buffer and a caller's array of at
    least [req] slots: no fault, and the result in closed form. *)
Lemma read_mt_spec i samp req :
  buffer_ok i →
  req <= Z.of_nat (length samp) →
  ts_mswin_input_read_mt i samp req
  = Some (write_samples samp 0 (filter is_active (scanned i req)),
          Z.of_nat (length (filter is_active (scanned i req)))).
Proof.
  intros [Hcap Hbuf] Hreq. unfold ts_mswin_input_read_mt, scanned.
  destruct (buf i) as [l|] eqn:Hb.
  - rewrite (read_mt_loop_spec _ i l samp req 0 0 Hb Hbuf); [| lia | lia | lia].
    simpl. rewrite Z.sub_0_r. by rewrite drop_0.
  - simpl. rewrite take_nil.
    assert (Hc : (0 <? req) && (0 <? max_slots i) = false).
    { rewrite Hbuf. apply andb_false_r. }
    destruct (Z.to_nat req); simpl; by rewrite Hc.
Qed.

Lemma fill_sample_mt_twice s r :
  fill_sample_mt (fill_sample_mt s r) r = fill_sample_mt s r.
Proof. reflexivity. Qed.

Lemma write_samples_twice samp act :
  (length act ≤ length samp)%nat →
  write_samples (write_samples samp 0 act) 0 act = write_samples samp 0 act.
Proof.
  intros Hlen. apply list_eq. intros n.
  destruct (act !! n) as [r|] eqn:Hn.
  - destruct (write_samples_at act samp 0 n r) as (s & Hs & Hw); [simpl; lia | done |].
    destruct (write_samples_at act (write_samples samp 0 act) 0 n r)
      as (s' & Hs' & Hw'); [rewrite write_samples_length; simpl; lia | done |].
    simpl in *. rewrite Hw in Hs'. injection Hs' as <-. by rewrite Hw', Hw.
  - apply lookup_ge_None_1 in Hn.
    rewrite !write_samples_after by (simpl; lia). done.
Qed.

Lemma write_samples_written samp act :
  (length act ≤ length samp)%nat →
  written <$> take (length act) (write_samples samp 0 act)
  = (λ r, (ti_x r, ti_y r, sec_of r, usec_of r)) <$> act.
Proof.
  intros Hlen. apply list_eq. intros n. rewrite !list_lookup_fmap.
  destruct (act !! n) as [r|] eqn:Hn.
  - destruct (write_samples_at act samp 0 n r) as (s & Hs & Hw); [simpl; lia | done |].
    simpl in Hw. rewrite lookup_take_lt by (by eapply lookup_lt_Some).
    by rewrite Hw.
  - apply lookup_ge_None_1 in Hn. by rewrite lookup_take_ge.
Qed.

(** ** The single-point read *)

(** On a well-formed buffer the single-point read returns 0 exactly when
    the capacity is zero and 1 otherwise; with a non-zero capacity it
    assigns x, y and the converted timestamp of record 0 to the caller's
    sample when that record's flags include down or move, and leaves the
    sample as it was when they include neither. *)
Lemma read_single_point i samp :
  buffer_ok i →
  ∃ samp' ret,
    ts_mswin_input_read i samp = Some (samp', ret) ∧
    (ret = 0 ↔ max_slots i = 0) ∧
    (max_slots i = 0 → samp' = samp) ∧
    (max_slots i ≠ 0 →
       ret = 1 ∧
       ∃ r, buf_at i 0 = Some r ∧
         (Z.land (dwFlags r) TOUCHEVENTF_DOWN ≠ 0 ∨ Z.land (dwFlags r) TOUCHEVENTF_MOVE ≠ 0 →
            samp' = mk_ts_sample (ti_x r) (ti_y r) (samp_pressure samp) (sec_of r) (usec_of r)) ∧
         (Z.land (dwFlags r) TOUCHEVENTF_DOWN = 0 ∧ Z.land (dwFlags r) TOUCHEVENTF_MOVE = 0 →
            samp' = samp)).
Proof.
  intros [Hcap Hbuf]. unfold ts_mswin_input_read.
  destruct (max_slots i =? 0) eqn:H0.
  - apply Z.eqb_eq in H0. exists samp, 0. repeat split; try done.
  - apply Z.eqb_neq in H0.
    destruct (buf i) as [l|] eqn:Hb; [|done].
    destruct (lookup_lt_is_Some_2 l 0) as [r Hr]; [lia|].
    assert (Hat : buf_at i 0 = Some r) by (unfold buf_at; rewrite Hb; done).
    rewrite Hat. simpl.
    pose proof (active_spec r) as Hact.
    destruct (active r) eqn:Ha.
    + exists (fill_sample samp r), 1. split; [done|]. split; [split; [done | tauto]|].
      split; [tauto|]. intros _. split; [done|]. exists r. split; [done|].
      split; [done|]. intros [Hd Hm].
      assert (true = true) as Ht%Hact by done. tauto.
    + exists samp, 1. split; [done|]. split; [split; [done | tauto]|].
      split; [tauto|]. intros _. split; [done|]. exists r. split; [done|].
      split; [|done]. intros Hf%Hact. done.
Qed.

(** ** The multi-point read *)

(** C6: the multi-point read emits exactly the scanned records whose flags
    include down or move.  Record number [n] among them, in buffer order, is
    stored at slot [n] of the caller's array: the slot receives that
    record's x and y, its [dwTime / 1000] as seconds and its [dwTime * 1000]
    as microseconds (both as the 32-bit fields hold them), and keeps its
    other fields.  The slots after the emitted records are left alone, and
    the count of emitted records is returned. *)
Theorem read_mt_emits_active_in_order i samp req :
  buffer_ok i →
  req <= Z.of_nat (length samp) →
  ∃ samp' act,
    ts_mswin_input_read_mt i samp req = Some (samp', Z.of_nat (length act)) ∧
    act = filter is_active (scanned i req) ∧
    (∀ r, r ∈ act ↔
       r ∈ scanned i req ∧
       (Z.land (dwFlags r) TOUCHEVENTF_DOWN ≠ 0 ∨ Z.land (dwFlags r) TOUCHEVENTF_MOVE ≠ 0)) ∧
    length samp' = length samp ∧
    (∀ n r, act !! n = Some r →
       ∃ s s', samp !! n = Some s ∧ samp' !! n = Some s' ∧
         mt_x s' = ti_x r ∧ mt_y s' = ti_y r ∧
         mt_tv_sec s' = to_int32 (dwTime r / 1000) ∧
         mt_tv_usec s' = to_int32 (to_uint32 (dwTime r * 1000)) ∧
         mt_pressure s' = mt_pressure s ∧ mt_slot s' = mt_slot s ∧
         mt_tracking_id s' = mt_tracking_id s ∧
         mt_pen_down s' = mt_pen_down s ∧ mt_valid s' = mt_valid s) ∧
    (∀ n, (length act ≤ n)%nat → samp' !! n = samp !! n).
Proof.
  intros Hok Hreq.
  exists (write_samples samp 0 (filter is_active (scanned i req))),
         (filter is_active (scanned i req)).
  pose proof (scanned_length i req) as Hlen.
  split; [by apply read_mt_spec|]. split; [done|]. split.
  { intros r. rewrite list_elem_of_filter, <- active_spec, Is_true_true. tauto. }
  split; [apply write_samples_length|]. split.
  - intros n r Hn.
    destruct (write_samples_at (filter is_active (scanned i req)) samp 0 n r)
      as (s & Hs & Hw); [simpl; lia | done |].
    simpl in Hs, Hw. exists s, (fill_sample_mt s r).
    split; [exact Hs|]. split; [exact Hw|]. repeat split.
  - intros n Hn. apply write_samples_after. simpl. lia.
Qed.

(** C9: with no message in between, two multi-point reads with the same
    [req] return the same count and store the same samples: into whatever
    arrays the caller passes, and, when the second read is given the array
    the first one filled, that array is left exactly as it was. *)
Theorem read_mt_idempotent i sampA sampB req :
  buffer_ok i →
  req <= Z.of_nat (length sampA) →
  req <= Z.of_nat (length sampB) →
  ∃ sampA' sampB' k,
    ts_mswin_input_read_mt i sampA req = Some (sampA', k) ∧
    ts_mswin_input_read_mt i sampB req = Some (sampB', k) ∧
    written <$> take (Z.to_nat k) sampA' = written <$> take (Z.to_nat k) sampB' ∧
    ts_mswin_input_read_mt i sampA' req = Some (sampA', k).
Proof.
  intros Hok HA HB.
  pose proof (scanned_length i req) as Hlen.
  set (act := filter is_active (scanned i req)) in *.
  exists (write_samples sampA 0 act), (write_samples sampB 0 act), (Z.of_nat (length act)).
  split; [by apply read_mt_spec|]. split; [by apply read_mt_spec|]. split.
  - rewrite Nat2Z.id. rewrite !write_samples_written by lia. done.
  - rewrite read_mt_spec; [| done | rewrite write_samples_length; lia].
    fold act. rewrite write_samples_twice by lia. done.
Qed.

(** ** The window procedure *)

Lemma buffer_ok_capacity i : buffer_ok i → capacity_ok i.
Proof. by intros [H _]. Qed.

Lemma memset_zero_ok i :
  buffer_ok i →
  memset_zero (buf i) (to_size_t (to_size_t (max_slots i) * sizeof_TOUCHINPUT))
  = Some ((λ _, replicate (Z.to_nat (max_slots i)) zero_TOUCHINPUT) <$> buf i).
Proof.
  intros [Hcap Hbuf]. unfold INT_MAX, sizeof_TOUCHINPUT in *.
  rewrite (to_size_t_small (max_slots i)) by lia.
  rewrite to_size_t_small by lia.
  unfold memset_zero. destruct (max_slots i * 48 =? 0) eqn:H0.
  - apply Z.eqb_eq in H0. assert (max_slots i = 0) as Hz by lia.
    destruct (buf i) as [l|]; [|done]. simpl. rewrite Hz.
    destruct l; [done | simpl in Hbuf; lia].
  - apply Z.eqb_neq in H0. destruct (buf i) as [l|]; [|lia]. simpl.
    unfold sizeof_TOUCHINPUT.
    destruct (max_slots i * 48 <=? Z.of_nat (length l) * 48) eqn:Hle;
      [|apply Z.leb_gt in Hle; lia].
    rewrite Z.div_mul by lia. rewrite drop_ge by lia. by rewrite app_nil_r.
Qed.

(** A fresh block for more than [INT_MAX] contacts makes the capacity
    negative, and the [memset] that follows runs past the block. *)
Lemma memset_zero_fresh_fault ni x :
  INT_MAX < ni < 2 ^ 32 →
  memset_zero (Some (replicate (Z.to_nat ni) x))
    (to_size_t (to_size_t (to_int32 ni) * sizeof_TOUCHINPUT)) = None.
Proof.
  unfold INT_MAX. intros H. rewrite to_int32_high by lia.
  unfold to_size_t, memset_zero, sizeof_TOUCHINPUT.
  replace ((ni - 2 ^ 32) mod 2 ^ 64) with (ni - 2 ^ 32 + 2 ^ 64).
  2:{ symmetry. rewrite <- (Z.mod_add _ 1) by lia. apply Z.mod_small. lia. }
  replace (((ni - 2 ^ 32 + 2 ^ 64) * 48) mod 2 ^ 64) with (2 ^ 64 - 48 * (2 ^ 32 - ni)).
  2:{ symmetry.
      replace ((ni - 2 ^ 32 + 2 ^ 64) * 48)
        with (2 ^ 64 - 48 * (2 ^ 32 - ni) + 47 * 2 ^ 64) by lia.
      rewrite Z.mod_add by lia. apply Z.mod_small. lia. }
  destruct (2 ^ 64 - 48 * (2 ^ 32 - ni) =? 0) eqn:H0; [apply Z.eqb_eq in H0; lia|].
  simpl. rewrite length_replicate.
  destruct (2 ^ 64 - 48 * (2 ^ 32 - ni) <=? Z.of_nat (Z.to_nat ni) * 48) eqn:Hle;
    [apply Z.leb_le in Hle; lia | done].
Qed.

Lemma unpack_batch_spec P i ni h :
  buffer_ok i →
  0 <= ni <= max_slots i →
  unpack_batch P i ni h
  = Some (unpacked_state P i ni h, is_some (os_GetTouchInputInfo P h ni)).
Proof.
  intros Hok Hni. unfold unpack_batch, unpacked_state.
  rewrite memset_zero_ok by done. simpl.
  destruct Hok as [Hcap Hbuf].
  destruct (os_GetTouchInputInfo P h ni) as [recs|]; simpl.
  - set (w := take (Z.to_nat ni) recs).
    assert (Hw : (length w ≤ Z.to_nat ni)%nat).
    { subst w. rewrite length_take. lia. }
    destruct (buf i) as [l|]; simpl.
    + rewrite length_replicate.
      destruct (length w <=? Z.to_nat (max_slots i))%nat eqn:Hle;
        [|apply Nat.leb_gt in Hle; lia].
      simpl. unfold filled. by rewrite drop_replicate.
    + destruct w; [done | simpl in Hw; lia].
  - unfold filled. rewrite take_nil. simpl. rewrite Nat.sub_0_r. by destruct (buf i).
Qed.

Lemma unpack_batch_fields P i ni h i' hd :
  unpack_batch P i ni h = Some (i', hd) →
  max_slots i' = max_slots i ∧ prevWndProc i' = prevWndProc i.
Proof.
  unfold unpack_batch. intros H.
  destruct (memset_zero _ _) as [b|]; [|done]. simpl in H.
  destruct (os_GetTouchInputInfo P h ni) as [recs|].
  - destruct (write_block _ _) as [b'|]; [|done]. simpl in H.
    by injection H as <- _.
  - by injection H as <- _.
Qed.

Lemma unpacked_state_ok P i ni h :
  buffer_ok i → 0 <= ni <= max_slots i → buffer_ok (unpacked_state P i ni h).
Proof.
  intros [Hcap Hbuf] Hni. split; [done|]. simpl.
  destruct (buf i) as [l|]; [|done]. simpl. unfold filled.
  rewrite length_app, length_replicate, length_take. lia.
Qed.

Lemma filter_active_zeros n : filter is_active (replicate n zero_TOUCHINPUT) = [].
Proof.
  induction n as [|n IH]; [done|]. simpl. rewrite filter_cons, IH.
  rewrite decide_False; [done | by intros []].
Qed.

(** After a batch of [ni] contacts was unpacked, the records a read emits
    are among the first [ni] of the buffer. *)
Lemma unpacked_state_active P i ni h req :
  0 <= ni →
  Z.of_nat (length (filter is_active (scanned (unpacked_state P i ni h) req)))
  <= Z.max 0 (Z.min req ni).
Proof.
  intros Hni. unfold scanned. simpl.
  destruct (buf i) as [l|]; simpl; [|rewrite take_nil; simpl; lia].
  unfold filled. rewrite take_app, filter_app, take_replicate, filter_active_zeros.
  rewrite app_nil_r.
  pose proof (length_filter is_active
    (take (Z.to_nat (Z.min req (max_slots i)))
       (take (Z.to_nat ni) (default [] (os_GetTouchInputInfo P h ni))))) as H.
  rewrite !length_take in H. lia.
Qed.

Lemma grown_state_ok i ni : 0 <= ni <= INT_MAX → buffer_ok (grown_state i ni).
Proof.
  unfold INT_MAX. intros H. unfold buffer_ok, grown_state. simpl.
  rewrite to_int32_small by lia. rewrite length_replicate. unfold INT_MAX. lia.
Qed.

(** The three ways [case WM_TOUCH] ends without a fault. *)
Lemma touch_case_inv P i wP lP i' hd :
  capacity_ok i →
  touch_case P i wP lP = Some (i', hd) →
  let ni := to_uint32 wP in
  (ni <= max_slots i ∧ unpack_batch P i ni lP = Some (i', hd))
  ∨ (max_slots i < ni <= INT_MAX ∧ os_malloc P (ni * sizeof_TOUCHINPUT) = true ∧
     unpack_batch P (grown_state i ni) ni lP = Some (i', hd))
  ∨ (max_slots i < ni ∧ os_malloc P (ni * sizeof_TOUCHINPUT) = false ∧
     i' = set_buf None i ∧ hd = false).
Proof.
  intros Hcap H ni. unfold touch_case in H. fold ni in H.
  pose proof (to_uint32_range wP) as Hr. fold ni in Hr.
  unfold capacity_ok, INT_MAX in Hcap.
  rewrite (to_uint32_small (max_slots i)) in H by lia.
  rewrite to_size_t_small in H by (unfold sizeof_TOUCHINPUT; lia).
  destruct (max_slots i <? ni) eqn:Hlt.
  - apply Z.ltb_lt in Hlt.
    destruct (os_malloc P (ni * sizeof_TOUCHINPUT)) eqn:Hm.
    + right. left. split; [|done]. split; [done|].
      destruct (Z_le_gt_dec ni INT_MAX) as [|Hbig]; [done|]. exfalso.
      unfold unpack_batch in H. simpl in H.
      rewrite memset_zero_fresh_fault in H by lia. done.
    + right. right. by injection H as <- <-.
  - apply Z.ltb_ge in Hlt. by left.
Qed.

Lemma unpack_batch_handled P i ni h i' :
  unpack_batch P i ni h = Some (i', true) → is_Some (os_GetTouchInputInfo P h ni).
Proof.
  unfold unpack_batch. intros H.
  destruct (memset_zero _ _) as [b|]; [|done]. simpl in H.
  destruct (os_GetTouchInputInfo P h ni) as [recs|]; [by eexists | done].
Qed.

(** [case WM_TOUCH] on a well-formed buffer and a contact count that fits
    an [int]: no fault, and the result in closed form. *)
Lemma touch_case_spec P i wP lP :
  buffer_ok i →
  to_uint32 wP <= INT_MAX →
  let ni := to_uint32 wP in
  touch_case P i wP lP
  = Some (if max_slots i <? ni then
            if os_malloc P (ni * sizeof_TOUCHINPUT)
            then (unpacked_state P (grown_state i ni) ni lP,
                  is_some (os_GetTouchInputInfo P lP ni))
            else (set_buf None i, false)
          else (unpacked_state P i ni lP, is_some (os_GetTouchInputInfo P lP ni))).
Proof.
  intros Hok Hmax ni. unfold touch_case. fold ni.
  pose proof (to_uint32_range wP) as Hr. fold ni in Hr, Hmax.
  pose proof (buffer_ok_capacity i Hok) as Hcap.
  unfold capacity_ok, INT_MAX in *.
  rewrite (to_uint32_small (max_slots i)) by lia.
  rewrite to_size_t_small by (unfold sizeof_TOUCHINPUT; lia).
  destruct (max_slots i <? ni) eqn:Hlt.
  - destruct (os_malloc P (ni * sizeof_TOUCHINPUT)); [|done].
    apply (unpack_batch_spec P (grown_state i ni)).
    + apply grown_state_ok. unfold INT_MAX. lia.
    + simpl. rewrite to_int32_small by lia. lia.
  - apply Z.ltb_ge in Hlt. apply unpack_batch_spec; [done | lia].
Qed.

(** On a well-formed buffer and for a contact count that fits an [int]: a
    message that is not [WM_TOUCH], or whose buffer growth or unpacking fails, is passed with its own arguments to the previously
    installed procedure, whose result is returned; a [WM_TOUCH] message that
    is unpacked has its touch handle closed and is answered with 0 without
    being forwarded. *)
Lemma handler_dispatch P i m :
  buffer_ok i →
  contact_count m <= INT_MAX →
  let ni := contact_count m in
  let growth_failed := max_slots i < ni ∧ os_malloc P (ni * sizeof_TOUCHINPUT) = false in
  ∃ i' tr res,
    tslibWndProc P i m = Some (i', tr, res) ∧
    (uMsg m ≠ WM_TOUCH ∨ growth_failed ∨ os_GetTouchInputInfo P (lParam m) ni = None →
       tr = [CallWindowProc (prevWndProc i) (hwnd m) (uMsg m) (wParam m) (lParam m)] ∧
       res = os_CallWindowProc P (prevWndProc i) (hwnd m) (uMsg m) (wParam m) (lParam m)) ∧
    (uMsg m = WM_TOUCH → ¬ growth_failed →
     is_Some (os_GetTouchInputInfo P (lParam m) ni) →
       tr = [CloseTouchInputHandle (lParam m)] ∧ res = 0).
Proof.
  intros Hok Hmax ni growth_failed. unfold tslibWndProc.
  destruct (uMsg m =? WM_TOUCH) eqn:Hmsg.
  - apply Z.eqb_eq in Hmsg.
    rewrite (touch_case_spec P i (wParam m) (lParam m) Hok Hmax).
    fold (contact_count m). fold ni. simpl.
    destruct (max_slots i <? ni) eqn:Hlt;
      [apply Z.ltb_lt in Hlt | apply Z.ltb_ge in Hlt];
      [destruct (os_malloc P (ni * sizeof_TOUCHINPUT)) eqn:Hm|];
      try (destruct (os_GetTouchInputInfo P (lParam m) ni) as [recs|] eqn:Hu);
      simpl; eexists _, _, _; (split; [reflexivity|]); subst growth_failed;
      split; try done; try (intros [?|[[? ?]|?]]; done || lia);
      try (intros _ _ [? ?]; done).
    intros _ Hg. exfalso. apply Hg. done.
  - apply Z.eqb_neq in Hmsg. simpl. eexists _, _, _. split; [reflexivity|].
    split; [done|]. intros. done.
Qed.

Lemma tslibWndProc_inv P i m i' tr res :
  tslibWndProc P i m = Some (i', tr, res) →
  (uMsg m ≠ WM_TOUCH ∧ i' = i ∧ handled_output (tr, res) = false)
  ∨ (uMsg m = WM_TOUCH ∧
     touch_case P i (wParam m) (lParam m) = Some (i', handled_output (tr, res))).
Proof.
  unfold tslibWndProc. intros H.
  destruct (uMsg m =? WM_TOUCH) eqn:Hmsg.
  - apply Z.eqb_eq in Hmsg. right. split; [done|].
    destruct (touch_case P i (wParam m) (lParam m)) as [[i1 hd]|]; [|done].
    simpl in H. destruct hd; by injection H as <- <- <-.
  - apply Z.eqb_neq in Hmsg. left. simpl in H. by injection H as <- <- <-.
Qed.

(** One message: the capacity stays a non-negative [int], does not drop, and
    covers the contact count of a handled batch. *)
Lemma step_capacity P i m i' tr res :
  capacity_ok i →
  tslibWndProc P i m = Some (i', tr, res) →
  capacity_ok i' ∧ max_slots i <= max_slots i' ∧
  (handled_output (tr, res) = true → contact_count m <= max_slots i').
Proof.
  intros Hcap H.
  destruct (tslibWndProc_inv _ _ _ _ _ _ H) as [(_ & -> & ->) | [_ Ht]];
    [split; [done|]; split; [lia | done]|].
  pose proof (to_uint32_range (wParam m)) as Hr.
  unfold capacity_ok, INT_MAX in *.
  destruct (touch_case_inv _ _ _ _ _ _ Hcap Ht) as [[Hle Hu] | [(Hlt & _ & Hu) | (Hlt & _ & -> & Hh)]].
  - apply unpack_batch_fields in Hu as [-> _]. unfold contact_count. lia.
  - apply unpack_batch_fields in Hu as [-> _]. simpl. unfold INT_MAX in Hlt.
    rewrite to_int32_small by lia. unfold contact_count. lia.
  - rewrite Hh. simpl. split; [lia|]. split; [lia | done].
Qed.

(** C7: across any sequence of messages the capacity does not decrease,
    whether or not the allocations succeed; when every message of the
    sequence is a batch that was handled, the capacity at the end is at
    least every batch's contact count, hence at least their maximum. *)
Theorem capacity_monotone ds : ∀ i i' outs,
  capacity_ok i →
  run_messages ds i = Some (i', outs) →
  max_slots i <= max_slots i' ∧
  (Forall (λ o, handled_output o = true) outs →
   Forall (λ d, contact_count d.2 <= max_slots i') ds).
Proof.
  induction ds as [|[P m] ds IH]; intros i i' outs Hcap H; simpl in H.
  - injection H as <- <-. split; [lia | constructor].
  - destruct (tslibWndProc P i m) as [[[i1 tr] res]|] eqn:Hstep; [|done]. simpl in H.
    destruct (run_messages ds i1) as [[i2 outs']|] eqn:Hrun; [|done]. simpl in H.
    injection H as <- <-.
    destruct (step_capacity _ _ _ _ _ _ Hcap Hstep) as (Hcap1 & Hle & Hh).
    destruct (IH _ _ _ Hcap1 Hrun) as [Hle' Hall]. split; [lia|].
    intros Hout. apply Forall_cons in Hout as [Ho Hout].
    constructor; [simpl; specialize (Hh Ho); lia | by apply Hall].
Qed.

(** C4: after a batch of [n] contacts was handled, a multi-point read with
    a non-negative [req] returns at most [min (req, n)], whatever the
    capacity of the buffer. *)
Theorem read_mt_bounded_by_batch P i m i' tr res samp req :
  buffer_ok i →
  tslibWndProc P i m = Some (i', tr, res) →
  handled_output (tr, res) = true →
  0 <= req <= Z.of_nat (length samp) →
  ∃ samp' k,
    ts_mswin_input_read_mt i' samp req = Some (samp', k) ∧
    0 <= k <= Z.min req (contact_count m).
Proof.
  intros Hok H Hh Hreq.
  destruct (tslibWndProc_inv _ _ _ _ _ _ H) as [(_ & _ & Hf) | [_ Ht]]; [congruence|].
  rewrite Hh in Ht.
  pose proof (to_uint32_range (wParam m)) as Hr.
  assert (Hfin : ∀ i0, buffer_ok i0 → contact_count m <= max_slots i0 →
            unpack_batch P i0 (contact_count m) (lParam m) = Some (i', true) →
            ∃ samp' k, ts_mswin_input_read_mt i' samp req = Some (samp', k) ∧
                       0 <= k <= Z.min req (contact_count m)).
  { intros i0 Hok0 Hle Hu. unfold contact_count in *.
    rewrite unpack_batch_spec in Hu by (done || lia). injection Hu as <- _.
    eexists _, _. split.
    - apply read_mt_spec; [apply unpacked_state_ok; done || lia | lia].
    - pose proof (unpacked_state_active P i0 (to_uint32 (wParam m)) (lParam m) req). lia. }
  destruct (touch_case_inv _ _ _ _ _ _ (buffer_ok_capacity _ Hok) Ht)
    as [[Hle Hu] | [(Hlt & _ & Hu) | (_ & _ & _ & ?)]]; [| |done].
  - by apply (Hfin i).
  - apply (Hfin (grown_state i (contact_count m))); [| |done].
    + apply grown_state_ok. unfold contact_count. lia.
    + simpl. unfold contact_count, INT_MAX in *. rewrite to_int32_small by lia. lia.
Qed.


(** A failed growth of the buffer: the message is forwarded, the capacity
    keeps its value, and the buffer pointer is null. *)
Lemma alloc_failure_state P i m :
  capacity_ok i →
  uMsg m = WM_TOUCH →
  max_slots i < contact_count m →
  os_malloc P (contact_count m * sizeof_TOUCHINPUT) = false →
  tslibWndProc P i m
  = Some (set_buf None i,
          [CallWindowProc (prevWndProc i) (hwnd m) (uMsg m) (wParam m) (lParam m)],
          os_CallWindowProc P (prevWndProc i) (hwnd m) (uMsg m) (wParam m) (lParam m)).
Proof.
  intros Hcap Hmsg Hlt Hm. unfold tslibWndProc, touch_case.
  rewrite Hmsg, Z.eqb_refl. fold (contact_count m).
  pose proof (to_uint32_range (wParam m)) as Hr. fold (contact_count m) in Hr.
  unfold capacity_ok, INT_MAX in Hcap.
  rewrite (to_uint32_small (max_slots i)) by lia.
  rewrite to_size_t_small by (unfold sizeof_TOUCHINPUT; lia).
  apply Z.ltb_lt in Hlt. by rewrite Hlt, Hm.
Qed.

(** C2: growth from capacity 2 to 10 contacts with a failing allocation.
    The message is forwarded and the capacity stays 2, but the buffer
    pointer is null afterwards, the two records are gone, and the next
    single-point read faults. *)
Theorem alloc_failure_drops_buffer :
  let i := set_max_slots 2
             (set_buf (Some [contact 10 20 TOUCHEVENTF_DOWN 1500;
                             contact 30 40 TOUCHEVENTF_MOVE 1500]) initial_input) in
  tslibWndProc (platform_of false None) i (touch_message 10)
  = Some (set_buf None i, [CallWindowProc 0 1 WM_TOUCH 10 9], 77)
  ∧ buf (set_buf None i) = None
  ∧ max_slots (set_buf None i) = 2
  ∧ ts_mswin_input_read (set_buf None i) (mk_ts_sample 0 0 0 0 0) = None.
Proof. repeat split; reflexivity. Qed.

(** ** The timestamp conversion *)

Lemma sec_of_ms r : 0 <= dwTime r < 2 ^ 32 → sec_of r = dwTime r / 1000.
Proof.
  intros H. unfold sec_of. apply to_int32_small.
  assert (0 <= dwTime r / 1000 < 2 ^ 31); [|lia].
  split; [apply Z.div_pos; lia | apply Z.div_lt_upper_bound; lia].
Qed.

Lemma usec_of_ms r :
  0 <= dwTime r → dwTime r * 1000 < 2 ^ 31 → usec_of r = dwTime r * 1000.
Proof.
  intros H0 H. unfold usec_of. rewrite to_uint32_small by lia.
  apply to_int32_small. lia.
Qed.

(** C1: the scenario of three contacts at 1500 ms.  Both reads store 1 as
    the seconds and 1500000, not 500000, as the microseconds of every sample
    they emit. *)
Theorem timestamp_split_1500ms :
  ts_mswin_input_read scenario_input (mk_ts_sample 0 0 0 0 0)
  = Some (mk_ts_sample 10 20 0 1 1500000, 1)
  ∧ ts_mswin_input_read_mt scenario_input (replicate 5 blank_mt) 5
    = Some ([mk_ts_sample_mt 10 20 0 0 0 1 1500000 0 0;
             mk_ts_sample_mt 50 60 0 0 0 1 1500000 0 0;
             blank_mt; blank_mt; blank_mt], 2).
Proof. split; reflexivity. Qed.

(** ** Option parsing and module initialisation *)

Lemma out_of_range_any_errno v errno :
  out_of_range v → strtoul v errno = (ULONG_MAX, ERANGE).
Proof.
  unfold out_of_range, strtoul. destruct (scan_number v) as [neg n].
  destruct (ULONG_MAX <? n); [done|]. intros H. by injection H.
Qed.

Lemma parse_raw_grab_out_of_range i v tag errno :
  out_of_range v → parse_raw_grab i v tag errno = (-1, i, ERANGE).
Proof.
  intros H. unfold parse_raw_grab. by rewrite (out_of_range_any_errno v errno H).
Qed.

Lemma parse_vars_config_error params : ∀ i errno,
  Exists (λ kv, kv.1 ≠ "grab_events" ∨ out_of_range kv.2) params →
  (tslib_parse_vars i raw_vars params errno).1.1 ≠ 0.
Proof.
  induction params as [|[key value] rest IH]; intros i errno Hex.
  - by apply Exists_nil in Hex.
  - simpl. rewrite decide_bool_decide.
    destruct (bool_decide ("grab_events" = key)) eqn:Hkey; simpl; [|done].
    apply bool_decide_eq_true in Hkey as <-.
    destruct (parse_raw_grab i value 1 errno) as [[ret i1] errno1] eqn:Hp.
    destruct (ret =? 0) eqn:Hret; [|by apply Z.eqb_neq in Hret].
    apply Z.eqb_eq in Hret as ->.
    apply Exists_cons in Hex as [[Hk | Hv] | Hrest]; [done | | by apply IH].
    simpl in Hv. rewrite parse_raw_grab_out_of_range in Hp by done. by injection Hp.
Qed.

(** C5, as amended: initialisation returns the null result, after freeing
    the state it had allocated, whenever the configuration has an option
    whose key is not [grab_events] or a [grab_events] value that [strtoul]
    reports as out of range. *)
Theorem init_fails_on_config_error fd old_proc params errno :
  Exists (λ kv, kv.1 ≠ "grab_events" ∨ out_of_range kv.2) params →
  wmtouch_mod_init true fd old_proc params errno = (None, [free_tslib_input]).
Proof.
  intros Hex. unfold wmtouch_mod_init.
  pose proof (parse_vars_config_error params initial_input errno Hex) as Hne.
  destruct (tslib_parse_vars initial_input raw_vars params errno) as [[ret i] e].
  simpl in Hne. apply Z.eqb_neq in Hne. by rewrite Hne.
Qed.

(** C5, as stated, fails: the value [abc] has no digits, [strtoul] reads it
    as 0 without an error, and initialisation succeeds. *)
Lemma init_accepts_value_without_digits :
  strtoul "abc" 0 = (0, 0)
  ∧ wmtouch_mod_init true 5 6 [("grab_events", "abc")] 0
    = (Some (set_prevWndProc 6 initial_input),
       [SetWindowLongPtr_USERDATA 5; SetWindowLongPtr_WNDPROC 5]).
Proof. split; reflexivity. Qed.



(** * The theorems at concrete inputs *)

Lemma scenario_input_ok : buffer_ok scenario_input.
Proof. split; [unfold INT_MAX; simpl; lia | reflexivity]. Defined.

Lemma initial_input_ok : buffer_ok initial_input.
Proof. split; [unfold INT_MAX; simpl; lia | reflexivity]. Defined.

Lemma read_single_point_witness :
  buffer_ok scenario_input ∧
  ∃ samp' ret,
    ts_mswin_input_read scenario_input (mk_ts_sample 0 0 0 0 0) = Some (samp', ret) ∧
    ret = 1 ∧ samp_x samp' = 10 ∧ samp_y samp' = 20.
Proof.
  split; [exact scenario_input_ok|].
  destruct (read_single_point scenario_input (mk_ts_sample 0 0 0 0 0) scenario_input_ok)
    as (samp' & ret & He & _ & _ & Hn).
  destruct Hn as (Hret & r & Hr & Hact & _); [simpl; lia|].
  exists samp', ret. split; [exact He|]. split; [exact Hret|].
  injection Hr as <-. rewrite Hact; [split; reflexivity|].
  left. vm_compute. discriminate.
Defined.

Lemma read_mt_emits_active_in_order_witness :
  buffer_ok scenario_input ∧
  5 <= Z.of_nat (length (replicate 5 blank_mt)) ∧
  ts_mswin_input_read_mt scenario_input (replicate 5 blank_mt) 5
  = Some ([mk_ts_sample_mt 10 20 0 0 0 1 1500000 0 0;
           mk_ts_sample_mt 50 60 0 0 0 1 1500000 0 0;
           blank_mt; blank_mt; blank_mt], 2).
Proof.
  split; [exact scenario_input_ok|].
  assert (Hreq : 5 <= Z.of_nat (length (replicate 5 blank_mt))) by (simpl; lia).
  split; [exact Hreq|].
  destruct (read_mt_emits_active_in_order scenario_input (replicate 5 blank_mt) 5
              scenario_input_ok Hreq) as (samp' & act & He & Hact & _ & Hlen & Hat & Hrest).
  rewrite He. f_equal. f_equal; [|rewrite Hact; reflexivity].
  assert (H0 : act !! 0%nat = Some (contact 10 20 TOUCHEVENTF_DOWN 1500))
    by (rewrite Hact; reflexivity).
  assert (H1 : act !! 1%nat = Some (contact 50 60 TOUCHEVENTF_MOVE 1500))
    by (rewrite Hact; reflexivity).
  destruct (Hat _ _ H0) as (s0 & s0' & Hs0 & Hs0' & A0).
  destruct (Hat _ _ H1) as (s1 & s1' & Hs1 & Hs1' & A1).
  assert (Hl : length act = 2%nat) by (rewrite Hact; reflexivity).
  pose proof (Hrest 2%nat) as R2. pose proof (Hrest 3%nat) as R3.
  pose proof (Hrest 4%nat) as R4.
  rewrite Hl in R2, R3, R4.
  specialize (R2 ltac:(lia)). specialize (R3 ltac:(lia)). specialize (R4 ltac:(lia)).
  injection Hs0 as <-. injection Hs1 as <-.
  destruct s0' as [x0 y0 p0 sl0 t0 sec0 us0 pd0 v0].
  destruct s1' as [x1 y1 p1 sl1 t1 sec1 us1 pd1 v1].
  simpl in A0, A1.
  destruct A0 as (-> & -> & -> & -> & -> & -> & -> & -> & ->).
  destruct A1 as (-> & -> & -> & -> & -> & -> & -> & -> & ->).
  destruct samp' as [|a0 [|a1 [|a2 [|a3 [|a4 [|a5 rest]]]]]]; try discriminate Hlen.
  simpl in Hs0', Hs1', R2, R3, R4.
  injection Hs0' as ->. injection Hs1' as ->.
  injection R2 as ->. injection R3 as ->. injection R4 as ->.
  reflexivity.
Defined.

Lemma read_mt_idempotent_witness :
  ∃ sampA' sampB' k,
    ts_mswin_input_read_mt scenario_input (replicate 5 blank_mt) 5 = Some (sampA', k) ∧
    ts_mswin_input_read_mt scenario_input (replicate 6 blank_mt) 5 = Some (sampB', k) ∧
    written <$> take (Z.to_nat k) sampA' = written <$> take (Z.to_nat k) sampB' ∧
    ts_mswin_input_read_mt scenario_input sampA' 5 = Some (sampA', k).
Proof.
  apply (read_mt_idempotent scenario_input (replicate 5 blank_mt) (replicate 6 blank_mt) 5).
  - exact scenario_input_ok.
  - simpl. lia.
  - simpl. lia.
Defined.

Lemma handler_dispatch_witness :
  ∃ i',
    tslibWndProc (platform_of true (Some scenario_batch)) initial_input (touch_message 3)
    = Some (i', [CloseTouchInputHandle 9], 0).
Proof.
  destruct (handler_dispatch (platform_of true (Some scenario_batch)) initial_input
              (touch_message 3)) as (i' & tr & res & He & _ & Hh).
  - exact initial_input_ok.
  - unfold INT_MAX. vm_compute. discriminate.
  - destruct Hh as [-> ->].
    + reflexivity.
    + intros [_ Hm]. discriminate Hm.
    + eexists. reflexivity.
    + exists i'. exact He.
Defined.

Lemma capacity_monotone_witness :
  let five := replicate 5 (contact 1 1 TOUCHEVENTF_DOWN 7) in
  let i' := set_max_slots 5 (set_buf (Some (replicate 5 zero_TOUCHINPUT)) initial_input) in
  max_slots initial_input <= max_slots i' ∧
  (Forall (λ d : platform * message, contact_count d.2 <= max_slots i')
     [(platform_of true (Some five), touch_message 5);
      (platform_of true (Some []), touch_message 0)]).
Proof.
  intros five i'.
  destruct (capacity_monotone
              [(platform_of true (Some five), touch_message 5);
               (platform_of true (Some []), touch_message 0)]
              initial_input i'
              [([CloseTouchInputHandle 9], 0); ([CloseTouchInputHandle 9], 0)])
    as [Hle Hall].
  - unfold capacity_ok, INT_MAX. simpl. lia.
  - reflexivity.
  - split; [exact Hle|]. apply Hall. repeat constructor.
Defined.

Lemma read_mt_bounded_by_batch_witness :
  let i' := set_buf (Some [contact 1 2 TOUCHEVENTF_DOWN 5;
                           zero_TOUCHINPUT; zero_TOUCHINPUT]) scenario_input in
  ∃ samp' k,
    ts_mswin_input_read_mt i' (replicate 5 blank_mt) 5 = Some (samp', k) ∧
    0 <= k <= Z.min 5 (contact_count (touch_message 1)).
Proof.
  intros i'.
  apply (read_mt_bounded_by_batch
           (platform_of true (Some [contact 1 2 TOUCHEVENTF_DOWN 5]))
           scenario_input (touch_message 1) i' [CloseTouchInputHandle 9] 0).
  - exact scenario_input_ok.
  - reflexivity.
  - reflexivity.
  - simpl. lia.
Defined.

Lemma init_fails_on_config_error_witness :
  out_of_range "4294967296" ∧
  wmtouch_mod_init true 5 6 [("grab_events", "1"); ("grab_events", "4294967296")] 0
  = (None, [free_tslib_input]).
Proof.
  assert (H : out_of_range "4294967296") by reflexivity.
  split; [exact H|].
  apply init_fails_on_config_error.
  apply Exists_cons_tl, Exists_cons_hd. right. exact H.
Defined.


(** ** Scenarios of the specification *)

(** A batch of no contacts after a batch of five: the capacity stays 5 and
    the multi-point read emits nothing. *)
Example read_after_empty_batch :
  let five := replicate 5 (contact 1 1 TOUCHEVENTF_DOWN 7) in
  ('(i', _) ← run_messages [(platform_of true (Some five), touch_message 5);
                            (platform_of true (Some []), touch_message 0)] initial_input;
   r ← ts_mswin_input_read_mt i' (replicate 5 blank_mt) 5;
   Some (max_slots i', r.2))
  = Some (5, 0).
Proof. reflexivity. Qed.

(** A growth that fails after a batch of five: the capacity is still 5. *)
Example capacity_after_failed_growth :
  let five := replicate 5 (contact 1 1 TOUCHEVENTF_DOWN 7) in
  (λ r, max_slots r.1) <$>
    run_messages [(platform_of true (Some five), touch_message 5);
                  (platform_of false None, touch_message 8)] initial_input
  = Some 5.
Proof. reflexivity. Qed.

(** The flag survives a later value of 0. *)
Example grab_events_one_then_zero :
  wmtouch_mod_init true 5 6 [("grab_events", "1"); ("grab_events", "0")] 0
  = (Some (set_prevWndProc 6 (set_grab_events 1 initial_input)),
     [SetWindowLongPtr_USERDATA 5; SetWindowLongPtr_WNDPROC 5]).
Proof. reflexivity. Qed.

(** * Further properties of the reads *)

(** The loop of the multi-point read for a caller's array of any length:
    it completes when the array has a slot for every record it emits, and
    stores past the end of the array otherwise. *)
Lemma read_mt_loop_fits fuel : ∀ i l samp req j k,
  buf i = Some l →
  Z.of_nat (length l) = max_slots i →
  0 <= k <= j →
  k <= Z.of_nat (length samp) →
  (Z.to_nat (Z.min req (max_slots i) - j) ≤ fuel)%nat →
  let act := filter is_active
               (take (Z.to_nat (Z.min req (max_slots i) - j)) (drop (Z.to_nat j) l)) in
  read_mt_loop fuel i samp req j k
  = if decide (k + Z.of_nat (length act) <= Z.of_nat (length samp))
    then Some (write_samples samp (Z.to_nat k) act, k + Z.of_nat (length act))
    else None.
Proof.
  induction fuel as [|fuel IH]; intros i l samp req j k Hb Hl Hk Hks Hfuel act.
  - subst act. simpl.
    destruct ((j <? req) && (j <? max_slots i)) eqn:Hc.
    + apply andb_true_iff in Hc as [H1%Z.ltb_lt H2%Z.ltb_lt]. lia.
    + replace (Z.to_nat (Z.min req (max_slots i) - j)) with 0%nat by lia.
      simpl. rewrite decide_True by lia. f_equal. f_equal. lia.
  - simpl. destruct ((j <? req) && (j <? max_slots i)) eqn:Hc.
    + apply andb_true_iff in Hc as [H1%Z.ltb_lt H2%Z.ltb_lt].
      destruct (lookup_lt_is_Some_2 l (Z.to_nat j)) as [r Hr]; [lia|].
      assert (Hbuf : buf_at i j = Some r).
      { unfold buf_at. rewrite Hb. simpl.
        destruct (0 <=? j) eqn:H0; [done|]. apply Z.leb_gt in H0. lia. }
      rewrite Hbuf. simpl.
      assert (Hact : act = filter is_active
                (r :: take (Z.to_nat (Z.min req (max_slots i) - (j + 1)))
                        (drop (Z.to_nat (j + 1)) l))).
      { subst act. f_equal.
        replace (Z.to_nat (Z.min req (max_slots i) - j))
          with (S (Z.to_nat (Z.min req (max_slots i) - (j + 1)))) by lia.
        rewrite (drop_S l r (Z.to_nat j)) by done. simpl.
        by replace (Z.to_nat (j + 1)) with (S (Z.to_nat j)) by lia. }
      rewrite Hact. rewrite filter_cons.
      set (act' := filter is_active
             (take (Z.to_nat (Z.min req (max_slots i) - (j + 1)))
                (drop (Z.to_nat (j + 1)) l))).
      destruct (active r) eqn:Ha.
      * rewrite (decide_True (P:=Is_true true)) by done. simpl length.
        unfold store_at. destruct (0 <=? k) eqn:H0; [|apply Z.leb_gt in H0; lia].
        destruct (samp !! Z.to_nat k) as [s|] eqn:Hs; simpl.
        -- apply lookup_lt_Some in Hs as Hlt.
           rewrite (IH i l _ req (j + 1) (k + 1) Hb Hl);
             [| lia | rewrite length_insert; lia | lia].
           fold act'. rewrite length_insert.
           destruct (decide (k + 1 + Z.of_nat (length act') <= Z.of_nat (length samp)));
             [rewrite decide_True by lia | rewrite decide_False by lia; done].
           simpl. rewrite Hs.
           replace (Z.to_nat (k + 1)) with (S (Z.to_nat k)) by lia.
           f_equal. f_equal. lia.
        -- apply lookup_ge_None_1 in Hs. rewrite decide_False by lia. done.
      * rewrite (decide_False (P:=Is_true false)) by (by intros []).
        rewrite (IH i l samp req (j + 1) k Hb Hl); [done | lia | lia | lia].
    + subst act.
      assert (Z.min req (max_slots i) - j <= 0).
      { apply andb_false_iff in Hc as [H%Z.ltb_ge | H%Z.ltb_ge]; lia. }
      replace (Z.to_nat (Z.min req (max_slots i) - j)) with 0%nat by lia.
      simpl. rewrite decide_True by lia. f_equal. f_equal. lia.
Qed.

(** X3: on a well-formed buffer the multi-point read completes exactly when
    the caller's array has at least as many slots as there are records to
    emit; with fewer slots it stores past the end of the array. *)
Theorem read_mt_completes_iff_array_fits i samp req :
  buffer_ok i →
  is_Some (ts_mswin_input_read_mt i samp req)
  ↔ (length (filter is_active (scanned i req)) ≤ length samp)%nat.
Proof.
  intros [Hcap Hbuf]. unfold ts_mswin_input_read_mt, scanned.
  destruct (buf i) as [l|] eqn:Hb.
  - rewrite (read_mt_loop_fits _ i l samp req 0 0 Hb Hbuf); [| lia | lia | lia].
    simpl. rewrite Z.sub_0_r, drop_0.
    destruct (decide (0 + Z.of_nat (length (filter is_active
                (take (Z.to_nat (Z.min req (max_slots i))) l)))
              <= Z.of_nat (length samp))) as [Hle|Hgt].
    + split; [lia | by eexists].
    + split; [by intros [? ?] | lia].
  - simpl. rewrite take_nil. simpl.
    assert (Hc : (0 <? req) && (0 <? max_slots i) = false).
    { rewrite Hbuf. apply andb_false_r. }
    split; [lia|]. intros _.
    destruct (Z.to_nat req); simpl; rewrite Hc; by eexists.
Qed.

Lemma read_mt_completes_iff_array_fits_witness :
  buffer_ok scenario_input ∧
  is_Some (ts_mswin_input_read_mt scenario_input [blank_mt; blank_mt] 5) ∧
  ¬ is_Some (ts_mswin_input_read_mt scenario_input [blank_mt] 5).
Proof.
  split; [exact scenario_input_ok|]. split.
  - apply (read_mt_completes_iff_array_fits scenario_input [blank_mt; blank_mt] 5
             scenario_input_ok).
    vm_compute. lia.
  - intros H.
    apply (read_mt_completes_iff_array_fits scenario_input [blank_mt] 5
             scenario_input_ok) in H.
    vm_compute in H. lia.
Defined.

(** X2: the count the multi-point read returns lies between 0 and
    [min (req, max_slots)]; with [req <= 0] or an empty buffer it is 0 and
    the caller's array is left as it was. *)
Theorem read_mt_count_bounds i samp req :
  buffer_ok i →
  req <= Z.of_nat (length samp) →
  ∃ samp' k,
    ts_mswin_input_read_mt i samp req = Some (samp', k) ∧
    0 <= k <= Z.max 0 (Z.min req (max_slots i)) ∧
    (req <= 0 ∨ max_slots i = 0 → k = 0 ∧ samp' = samp).
Proof.
  intros Hok Hreq. eexists _, _. split; [by apply read_mt_spec|].
  pose proof (length_filter is_active (scanned i req)) as Hf.
  unfold scanned in *. rewrite length_take in Hf. split; [lia|].
  intros Hz.
  replace (Z.to_nat (Z.min req (max_slots i))) with 0%nat
    by (destruct Hok as [[? ?] _]; lia).
  done.
Qed.

Lemma read_mt_count_bounds_witness :
  ∃ samp' k,
    ts_mswin_input_read_mt scenario_input (replicate 2 blank_mt) 2 = Some (samp', k) ∧
    0 <= k <= 2.
Proof.
  destruct (read_mt_count_bounds scenario_input (replicate 2 blank_mt) 2)
    as (samp' & k & He & Hk & _).
  - exact scenario_input_ok.
  - simpl. lia.
  - exists samp', k. split; [exact He|]. simpl in Hk. lia.
Defined.

Lemma scanned_first i req l r :
  buffer_ok i → buf i = Some l → l !! 0%nat = Some r → 1 <= req →
  ∃ rest, scanned i req = r :: rest.
Proof.
  intros [Hcap Hbuf] Hb Hr Hreq. unfold scanned. rewrite Hb in *. simpl.
  destruct l as [|r0 l']; [done|]. simpl in Hr. injection Hr as ->.
  simpl in Hbuf.
  destruct (Z.to_nat (Z.min req (max_slots i))) as [|n] eqn:Hn; [lia|].
  by eexists.
Qed.

(** X1: when the first record of the buffer is down or moving, the
    single-point read and slot 0 of a multi-point read with [req >= 1] carry
    the same x, y, seconds and microseconds. *)
Theorem reads_agree_on_first_contact i samp samp_mt req r :
  buffer_ok i →
  1 <= req <= Z.of_nat (length samp_mt) →
  buf_at i 0 = Some r →
  active r = true →
  ∃ s1 samp_mt' k s,
    ts_mswin_input_read i samp = Some (s1, 1) ∧
    ts_mswin_input_read_mt i samp_mt req = Some (samp_mt', k) ∧
    1 <= k ∧
    samp_mt' !! 0%nat = Some s ∧
    (samp_x s1, samp_y s1, samp_tv_sec s1, samp_tv_usec s1) = written s.
Proof.
  intros Hok Hreq Hat Ha.
  pose proof Hok as [Hcap Hbuf].
  unfold buf_at in Hat. destruct (buf i) as [l|] eqn:Hb; [|done]. simpl in Hat.
  destruct (scanned_first i req l r Hok Hb Hat) as [rest Hsc]; [lia|].
  assert (Hact : filter is_active (scanned i req) = r :: filter is_active rest).
  { rewrite Hsc, filter_cons. by rewrite decide_True by (by rewrite Ha). }
  destruct (write_samples_at (filter is_active (scanned i req)) samp_mt 0 0 r)
    as (s0 & Hs0 & Hw).
  { pose proof (scanned_length i req). simpl. lia. }
  { by rewrite Hact. }
  simpl in Hs0, Hw.
  exists (fill_sample samp r), (write_samples samp_mt 0 (filter is_active (scanned i req))),
         (Z.of_nat (length (filter is_active (scanned i req)))), (fill_sample_mt s0 r).
  split.
  { unfold ts_mswin_input_read, buf_at. rewrite Hb. simpl. rewrite Hat. simpl.
    rewrite Ha. apply lookup_lt_Some in Hat.
    destruct (max_slots i =? 0) eqn:H0; [apply Z.eqb_eq in H0; lia | done]. }
  split; [apply read_mt_spec; done || lia|].
  split; [rewrite Hact; simpl; lia|]. split; [exact Hw | done].
Qed.

Lemma reads_agree_on_first_contact_witness :
  ∃ s1 samp_mt' k s,
    ts_mswin_input_read scenario_input (mk_ts_sample 0 0 0 0 0) = Some (s1, 1) ∧
    ts_mswin_input_read_mt scenario_input (replicate 5 blank_mt) 5 = Some (samp_mt', k) ∧
    1 <= k ∧
    samp_mt' !! 0%nat = Some s ∧
    (samp_x s1, samp_y s1, samp_tv_sec s1, samp_tv_usec s1) = written s.
Proof.
  apply (reads_agree_on_first_contact scenario_input (mk_ts_sample 0 0 0 0 0)
           (replicate 5 blank_mt) 5 (contact 10 20 TOUCHEVENTF_DOWN 1500)).
  - exact scenario_input_ok.
  - simpl. lia.
  - reflexivity.
  - reflexivity.
Defined.

Lemma filter_active_idle l :
  Forall (λ r, active r = false) l → filter is_active l = [].
Proof.
  induction 1 as [|r l Hr _ IH]; [done|].
  rewrite filter_cons, IH. rewrite decide_False; [done|]. rewrite Hr. by intros [].
Qed.

(** X4: with a buffer that holds records but none that is down or moving,
    the single-point read still returns 1 and leaves the caller's sample as
    it was, while the multi-point read returns 0. *)
Theorem reads_on_idle_buffer i samp samp_mt req :
  buffer_ok i →
  max_slots i ≠ 0 →
  Forall (λ r, active r = false) (default [] (buf i)) →
  req <= Z.of_nat (length samp_mt) →
  ts_mswin_input_read i samp = Some (samp, 1) ∧
  ts_mswin_input_read_mt i samp_mt req = Some (samp_mt, 0).
Proof.
  intros Hok Hne Hidle Hreq. pose proof Hok as [Hcap Hbuf]. split.
  - unfold ts_mswin_input_read, buf_at.
    destruct (max_slots i =? 0) eqn:H0; [apply Z.eqb_eq in H0; done|].
    destruct (buf i) as [l|]; [|done]. simpl in *.
    destruct l as [|r l']; [simpl in Hbuf; lia|]. simpl.
    apply Forall_cons in Hidle as [-> _]. done.
  - rewrite read_mt_spec by done.
    assert (filter is_active (scanned i req) = []) as ->; [|done].
    unfold scanned. apply filter_active_idle. by apply Forall_take.
Qed.

Lemma reads_on_idle_buffer_witness :
  let i := set_max_slots 2
             (set_buf (Some [contact 1 2 TOUCHEVENTF_UP 5; zero_TOUCHINPUT]) initial_input) in
  ts_mswin_input_read i (mk_ts_sample 7 8 9 10 11) = Some (mk_ts_sample 7 8 9 10 11, 1) ∧
  ts_mswin_input_read_mt i [blank_mt] 1 = Some ([blank_mt], 0).
Proof.
  intros i. apply (reads_on_idle_buffer i).
  - split; [unfold INT_MAX; simpl; lia | reflexivity].
  - simpl. lia.
  - simpl. repeat constructor.
  - simpl. lia.
Defined.

Lemma scanned_split i req req' :
  req <= req' → ∃ more, scanned i req' = scanned i req ++ more.
Proof.
  intros Hle. unfold scanned.
  exists (take (Z.to_nat (Z.min req' (max_slots i)) - Z.to_nat (Z.min req (max_slots i)))
            (drop (Z.to_nat (Z.min req (max_slots i))) (default [] (buf i)))).
  rewrite take_take_drop. f_equal. lia.
Qed.

(** X5: a multi-point read with a larger [req] returns at least as many
    samples and stores the same samples in the slots the smaller read
    fills; once [req] reaches the capacity, a larger [req] changes
    nothing. *)
Theorem read_mt_prefix_stable i samp req req' :
  buffer_ok i →
  req <= req' →
  req' <= Z.of_nat (length samp) →
  ∃ s1 k1 s2 k2,
    ts_mswin_input_read_mt i samp req = Some (s1, k1) ∧
    ts_mswin_input_read_mt i samp req' = Some (s2, k2) ∧
    k1 <= k2 ∧
    take (Z.to_nat k1) s2 = take (Z.to_nat k1) s1 ∧
    (max_slots i <= req → s2 = s1 ∧ k2 = k1).
Proof.
  intros Hok Hle Hreq.
  destruct (scanned_split i req req' Hle) as [more Hsplit].
  set (a1 := filter is_active (scanned i req)).
  set (a2 := filter is_active (scanned i req')).
  assert (Ha2 : a2 = a1 ++ filter is_active more).
  { subst a1 a2. by rewrite Hsplit, filter_app. }
  pose proof (scanned_length i req') as Hlen2. fold a2 in Hlen2.
  exists (write_samples samp 0 a1), (Z.of_nat (length a1)),
         (write_samples samp 0 a2), (Z.of_nat (length a2)).
  split; [apply read_mt_spec; done || lia|]. split; [by apply read_mt_spec|].
  split; [rewrite Ha2, length_app; lia|]. split.
  - rewrite Nat2Z.id. apply list_eq. intros n.
    destruct (decide (n < length a1)%nat) as [Hn|Hn].
    + rewrite !lookup_take_lt by done.
      destruct (lookup_lt_is_Some_2 a1 n Hn) as [r Hr].
      destruct (write_samples_at a1 samp 0 n r) as (s & Hs & Hw);
        [rewrite Ha2, length_app in Hlen2; simpl; lia | done |].
      destruct (write_samples_at a2 samp 0 n r) as (s' & Hs' & Hw');
        [simpl; lia | rewrite Ha2; by apply lookup_app_l_Some |].
      simpl in Hs, Hs', Hw, Hw'. congruence.
    + rewrite !lookup_take_ge by lia. done.
  - intros Hcap. subst a1 a2. unfold scanned.
    by replace (Z.to_nat (Z.min req' (max_slots i)))
      with (Z.to_nat (Z.min req (max_slots i))) by lia.
Qed.

Lemma read_mt_prefix_stable_witness :
  ∃ s1 k1 s2 k2,
    ts_mswin_input_read_mt scenario_input (replicate 5 blank_mt) 1 = Some (s1, k1) ∧
    ts_mswin_input_read_mt scenario_input (replicate 5 blank_mt) 4 = Some (s2, k2) ∧
    k1 <= k2 ∧
    take (Z.to_nat k1) s2 = take (Z.to_nat k1) s1.
Proof.
  destruct (read_mt_prefix_stable scenario_input (replicate 5 blank_mt) 1 4)
    as (s1 & k1 & s2 & k2 & H1 & H2 & Hk & Ht & _).
  - exact scenario_input_ok.
  - lia.
  - simpl. lia.
  - exists s1, k1, s2, k2. repeat split; assumption.
Defined.

Lemma write_samples_unwritten act : ∀ samp k,
  unwritten <$> write_samples samp k act = unwritten <$> samp.
Proof.
  induction act as [|r rs IH]; intros samp k; simpl; [done|].
  destruct (samp !! k) as [s|] eqn:Hs; [|done].
  rewrite IH, list_fmap_insert. apply list_insert_id.
  by rewrite list_lookup_fmap, Hs.
Qed.

(** X6: the reads assign x, y and the time stamp only: the single-point
    read keeps the sample's pressure, and the multi-point read keeps
    pressure, slot, tracking id, pen_down and valid of every slot of the
    caller's array, emitted or not. *)
Theorem reads_keep_other_fields i samp samp_mt req :
  buffer_ok i →
  req <= Z.of_nat (length samp_mt) →
  ∃ samp' ret samp_mt' k,
    ts_mswin_input_read i samp = Some (samp', ret) ∧
    samp_pressure samp' = samp_pressure samp ∧
    ts_mswin_input_read_mt i samp_mt req = Some (samp_mt', k) ∧
    unwritten <$> samp_mt' = unwritten <$> samp_mt.
Proof.
  intros Hok Hreq.
  assert (∃ samp' ret, ts_mswin_input_read i samp = Some (samp', ret) ∧
            samp_pressure samp' = samp_pressure samp) as (samp' & ret & Hr & Hp).
  { destruct Hok as [Hcap Hbuf]. unfold ts_mswin_input_read.
    destruct (max_slots i =? 0) eqn:H0; [by eexists _, _|].
    apply Z.eqb_neq in H0. unfold buf_at.
    destruct (buf i) as [l|]; [|done]. simpl.
    destruct l as [|r l']; [simpl in Hbuf; lia|]. simpl.
    destruct (active r); by eexists _, _. }
  exists samp', ret. eexists _, _. split; [exact Hr|]. split; [exact Hp|].
  split; [by apply read_mt_spec|]. apply write_samples_unwritten.
Qed.

Lemma reads_keep_other_fields_witness :
  ∃ samp' ret samp_mt' k,
    ts_mswin_input_read scenario_input (mk_ts_sample 0 0 255 0 0) = Some (samp', ret) ∧
    samp_pressure samp' = 255 ∧
    ts_mswin_input_read_mt scenario_input (replicate 5 blank_mt) 5 = Some (samp_mt', k) ∧
    unwritten <$> samp_mt' = unwritten <$> replicate 5 blank_mt.
Proof.
  apply (reads_keep_other_fields scenario_input (mk_ts_sample 0 0 255 0 0)
           (replicate 5 blank_mt) 5).
  - exact scenario_input_ok.
  - simpl. lia.
Defined.

(** X7: the time stamp as the reads store it, for a millisecond stamp in
    the range of a [DWORD]: the seconds are [ms / 1000]; the microseconds
    are [ms * 1000] reduced to a 32-bit [long], which is [ms * 1000] itself
    up to 2147483 ms. *)
Theorem timestamp_as_stored r :
  0 <= dwTime r < 2 ^ 32 →
  sec_of r = dwTime r / 1000 ∧
  - 2 ^ 31 <= usec_of r < 2 ^ 31 ∧
  (usec_of r - dwTime r * 1000) mod 2 ^ 32 = 0 ∧
  (dwTime r <= 2147483 → usec_of r = dwTime r * 1000).
Proof.
  intros H. split; [by apply sec_of_ms|].
  unfold usec_of, to_int32, to_uint32.
  pose proof (Z.mod_pos_bound (dwTime r * 1000) (2 ^ 32)) as H1.
  pose proof (Z.mod_pos_bound ((dwTime r * 1000) mod 2 ^ 32 + 2 ^ 31) (2 ^ 32)) as H2.
  split; [lia|]. split.
  - rewrite <- Zminus_mod_idemp_l.
    replace (((dwTime r * 1000) mod 2 ^ 32 + 2 ^ 31) mod 2 ^ 32 - 2 ^ 31)
      with (((dwTime r * 1000) mod 2 ^ 32 + 2 ^ 31) mod 2 ^ 32 + (- 2 ^ 31)) by lia.
    rewrite Zplus_mod_idemp_l, <- Z.add_assoc, Z.add_opp_diag_r, Z.add_0_r.
    rewrite Z.mod_mod by lia. rewrite Zminus_mod_idemp_l.
    rewrite Z.sub_diag. done.
  - intros Hs. rewrite (Z.mod_small (dwTime r * 1000)) by lia.
    rewrite Z.mod_small; lia.
Qed.

Lemma timestamp_as_stored_witness :
  sec_of (contact 0 0 TOUCHEVENTF_DOWN 61234) = 61 ∧
  usec_of (contact 0 0 TOUCHEVENTF_DOWN 61234) = 61234000.
Proof.
  destruct (timestamp_as_stored (contact 0 0 TOUCHEVENTF_DOWN 61234))
    as (Hs & _ & _ & Hu).
  - simpl. lia.
  - split; [exact Hs | apply Hu; simpl; lia].
Defined.

(** * Further properties of the window procedure *)

Lemma set_fields_id i : i = set_max_slots (max_slots i) (set_buf (buf i) i).
Proof. by destruct i. Qed.

Lemma unpack_batch_frame P i ni h i' hd :
  unpack_batch P i ni h = Some (i', hd) → i' = set_buf (buf i') i.
Proof.
  unfold unpack_batch. intros H.
  destruct (memset_zero _ _) as [b|]; [|done]. simpl in H.
  destruct (os_GetTouchInputInfo P h ni) as [recs|].
  - destruct (write_block _ _) as [b'|]; [|done]. simpl in H.
    by injection H as <- _.
  - by injection H as <- _.
Qed.

(** X8: whatever the message, the handler changes no field of the adapter
    state other than the buffer and the capacity; a message that is not
    [WM_TOUCH] changes nothing at all. *)
Theorem handler_changes_buffer_only P i m i' tr res :
  tslibWndProc P i m = Some (i', tr, res) →
  i' = set_max_slots (max_slots i') (set_buf (buf i') i) ∧
  (uMsg m ≠ WM_TOUCH → i' = i).
Proof.
  intros H.
  destruct (tslibWndProc_inv _ _ _ _ _ _ H) as [(_ & -> & _) | [Hm Ht]];
    [split; [apply set_fields_id | done]|].
  split; [|done]. unfold touch_case in Ht.
  destruct (to_uint32 (max_slots i) <? to_uint32 (wParam m)).
  - destruct (os_malloc P _).
    + apply unpack_batch_frame in Ht.
      assert (Hc : max_slots i' = to_int32 (to_uint32 (wParam m)))
        by (rewrite Ht; reflexivity).
      rewrite Hc. rewrite Ht at 1. by destruct i.
    + injection Ht as <- _. by destruct i.
  - apply unpack_batch_frame in Ht.
    assert (Hc : max_slots i' = max_slots i) by (rewrite Ht; reflexivity).
    rewrite Hc. rewrite Ht at 1. by destruct i.
Qed.

Lemma handler_changes_buffer_only_witness :
  let i := set_grab_events 1 (set_prevWndProc 42 initial_input) in
  ∃ i', tslibWndProc (platform_of true (Some scenario_batch)) i (touch_message 3)
        = Some (i', [CloseTouchInputHandle 9], 0) ∧
        grab_events i' = 1 ∧ prevWndProc i' = 42 ∧ last_fd i' = -2.
Proof.
  intros i. eexists. split; [reflexivity|].
  destruct (handler_changes_buffer_only (platform_of true (Some scenario_batch)) i
              (touch_message 3) _ _ _ eq_refl) as [-> _].
  repeat split.
Defined.

(** The handler on a [WM_TOUCH] message whose growth, if any, succeeds: the
    state the batch is unpacked into, and the outcome. *)
Lemma handler_touch_ok P i m :
  buffer_ok i →
  contact_count m <= INT_MAX →
  uMsg m = WM_TOUCH →
  (max_slots i < contact_count m →
   os_malloc P (contact_count m * sizeof_TOUCHINPUT) = true) →
  let n := contact_count m in
  let i0 := if max_slots i <? n then grown_state i n else i in
  tslibWndProc P i m
  = Some (unpacked_state P i0 n (lParam m),
          if is_some (os_GetTouchInputInfo P (lParam m) n)
          then [CloseTouchInputHandle (lParam m)]
          else [CallWindowProc (prevWndProc i) (hwnd m) (uMsg m) (wParam m) (lParam m)],
          if is_some (os_GetTouchInputInfo P (lParam m) n)
          then 0
          else os_CallWindowProc P (prevWndProc i) (hwnd m) (uMsg m) (wParam m) (lParam m))
  ∧ buffer_ok i0 ∧ max_slots i0 = Z.max (max_slots i) n.
Proof.
  intros Hok Hmax Hmsg Hm n i0.
  pose proof (to_uint32_range (wParam m)) as Hr. fold (contact_count m) in Hr. fold n in Hr.
  unfold tslibWndProc. rewrite Hmsg, Z.eqb_refl.
  rewrite (touch_case_spec P i (wParam m) (lParam m) Hok Hmax).
  fold (contact_count m). fold n. subst i0.
  destruct (max_slots i <? n) eqn:Hlt.
  - apply Z.ltb_lt in Hlt. fold n in Hm. rewrite (Hm Hlt). simpl.
    split; [by destruct (is_some _)|].
    split; [apply grown_state_ok; lia|].
    unfold INT_MAX in *. rewrite to_int32_small by lia. lia.
  - apply Z.ltb_ge in Hlt. simpl.
    split; [by destruct (is_some _)|]. split; [done | lia].
Qed.

(** X9: a [WM_TOUCH] message whose unpacking fails is forwarded, and it
    still clears the buffer: every record is zero afterwards and the
    multi-point read emits nothing, whatever the buffer held before. *)
Theorem unpack_failure_clears_buffer P i m samp req :
  buffer_ok i →
  contact_count m <= INT_MAX →
  uMsg m = WM_TOUCH →
  (max_slots i < contact_count m →
   os_malloc P (contact_count m * sizeof_TOUCHINPUT) = true) →
  os_GetTouchInputInfo P (lParam m) (contact_count m) = None →
  req <= Z.of_nat (length samp) →
  ∃ i',
    tslibWndProc P i m
    = Some (i', [CallWindowProc (prevWndProc i) (hwnd m) (uMsg m) (wParam m) (lParam m)],
            os_CallWindowProc P (prevWndProc i) (hwnd m) (uMsg m) (wParam m) (lParam m)) ∧
    max_slots i' = Z.max (max_slots i) (contact_count m) ∧
    Forall (λ r, r = zero_TOUCHINPUT) (default [] (buf i')) ∧
    ts_mswin_input_read_mt i' samp req = Some (samp, 0).
Proof.
  intros Hok Hmax Hmsg Hm Hu Hreq.
  destruct (handler_touch_ok P i m Hok Hmax Hmsg Hm) as (He & Hok0 & Hcap0).
  rewrite Hu in He. simpl in He.
  set (i0 := if max_slots i <? contact_count m
             then grown_state i (contact_count m) else i) in *.
  pose proof (to_uint32_range (wParam m)) as Hr. fold (contact_count m) in Hr.
  exists (unpacked_state P i0 (contact_count m) (lParam m)).
  split; [exact He|]. split; [exact Hcap0|].
  assert (Hz : Forall (λ r, r = zero_TOUCHINPUT)
            (default [] (buf (unpacked_state P i0 (contact_count m) (lParam m))))).
  { simpl. rewrite Hu. simpl. rewrite take_nil. unfold filled. simpl.
    destruct (buf i0); simpl; [|constructor].
    apply Forall_forall. intros r Hr'. by apply elem_of_replicate in Hr' as [-> _]. }
  split; [exact Hz|].
  rewrite read_mt_spec; [| apply unpacked_state_ok; done || lia | done].
  assert (filter is_active (scanned (unpacked_state P i0 (contact_count m) (lParam m)) req)
          = []) as ->; [|done].
  unfold scanned. apply filter_active_idle, Forall_take.
  eapply Forall_impl; [exact Hz|]. by intros r ->.
Qed.

Lemma unpack_failure_clears_buffer_witness :
  ∃ i',
    tslibWndProc (platform_of true None) scenario_input (touch_message 2)
    = Some (i', [CallWindowProc 0 1 WM_TOUCH 2 9], 77) ∧
    max_slots i' = 3 ∧
    ts_mswin_input_read_mt i' (replicate 5 blank_mt) 5 = Some (replicate 5 blank_mt, 0).
Proof.
  destruct (unpack_failure_clears_buffer (platform_of true None) scenario_input
              (touch_message 2) (replicate 5 blank_mt) 5)
    as (i' & He & Hc & _ & Hr).
  - exact scenario_input_ok.
  - vm_compute. discriminate.
  - reflexivity.
  - reflexivity.
  - reflexivity.
  - simpl. lia.
  - exists i'. split; [exact He|]. split; [exact Hc | exact Hr].
Defined.

Lemma scanned_unpacked P i n h req recs :
  buffer_ok i →
  0 <= n <= max_slots i →
  os_GetTouchInputInfo P h n = Some recs →
  Z.of_nat (length recs) = n →
  filter is_active (scanned (unpacked_state P i n h) req)
  = filter is_active (take (Z.to_nat req) recs).
Proof.
  intros [Hcap Hbuf] Hn Hu Hlen. unfold scanned. simpl. rewrite Hu. simpl.
  rewrite (take_ge recs (Z.to_nat n)) by lia.
  destruct (buf i) as [l|]; simpl.
  - unfold filled. rewrite take_app, filter_app, take_replicate, filter_active_zeros.
    rewrite app_nil_r. f_equal.
    destruct (Z_le_gt_dec req (max_slots i)).
    + by rewrite Z.min_l by lia.
    + rewrite Z.min_r by lia. rewrite !take_ge by lia. done.
  - assert (recs = []) as -> by (destruct recs; [done | simpl in Hlen; lia]).
    by rewrite !take_nil.
Qed.

(** X10: a [WM_TOUCH] batch that is unpacked and then read: the handler
    closes the handle, and a multi-point read returns the records among
    the first [req] of the batch that are down or moving, in the order of
    the batch, with their x, y, seconds and microseconds; nothing of an
    earlier batch is left. *)
Theorem batch_then_read P i m recs samp req :
  buffer_ok i →
  contact_count m <= INT_MAX →
  uMsg m = WM_TOUCH →
  (max_slots i < contact_count m →
   os_malloc P (contact_count m * sizeof_TOUCHINPUT) = true) →
  os_GetTouchInputInfo P (lParam m) (contact_count m) = Some recs →
  Z.of_nat (length recs) = contact_count m →
  req <= Z.of_nat (length samp) →
  let act := filter is_active (take (Z.to_nat req) recs) in
  ∃ i' samp',
    tslibWndProc P i m = Some (i', [CloseTouchInputHandle (lParam m)], 0) ∧
    ts_mswin_input_read_mt i' samp req = Some (samp', Z.of_nat (length act)) ∧
    written <$> take (length act) samp' = normalized <$> act.
Proof.
  intros Hok Hmax Hmsg Hm Hu Hlen Hreq act.
  destruct (handler_touch_ok P i m Hok Hmax Hmsg Hm) as (He & Hok0 & Hcap0).
  rewrite Hu in He. simpl in He.
  set (i0 := if max_slots i <? contact_count m
             then grown_state i (contact_count m) else i) in *.
  pose proof (to_uint32_range (wParam m)) as Hr. fold (contact_count m) in Hr.
  assert (Hact : filter is_active
            (scanned (unpacked_state P i0 (contact_count m) (lParam m)) req) = act).
  { apply scanned_unpacked; done || lia. }
  eexists _, _. split; [exact He|].
  rewrite read_mt_spec; [| apply unpacked_state_ok; done || lia | done].
  rewrite Hact. split; [done|].
  apply write_samples_written.
  pose proof (length_filter is_active (take (Z.to_nat req) recs)) as Hf.
  rewrite length_take in Hf. subst act. lia.
Qed.

Lemma batch_then_read_witness :
  ∃ i' samp',
    tslibWndProc (platform_of true (Some scenario_batch)) initial_input (touch_message 3)
    = Some (i', [CloseTouchInputHandle 9], 0) ∧
    ts_mswin_input_read_mt i' (replicate 5 blank_mt) 5 = Some (samp', 2) ∧
    written <$> take 2 samp' = [(10, 20, 1, 1500000); (50, 60, 1, 1500000)].
Proof.
  apply (batch_then_read (platform_of true (Some scenario_batch)) initial_input
           (touch_message 3) scenario_batch (replicate 5 blank_mt) 5).
  - exact initial_input_ok.
  - vm_compute. discriminate.
  - reflexivity.
  - reflexivity.
  - reflexivity.
  - reflexivity.
  - simpl. lia.
Defined.

Lemma peak_mono ds : ∀ c c', c <= c' → peak ds c <= peak ds c'.
Proof.
  induction ds as [|[P m] ds IH]; intros c c' Hle; simpl; [done|].
  apply IH. destruct (uMsg m =? WM_TOUCH); lia.
Qed.

Lemma step_peak P i m i' tr res :
  capacity_ok i →
  tslibWndProc P i m = Some (i', tr, res) →
  let top := if uMsg m =? WM_TOUCH then Z.max (max_slots i) (contact_count m)
             else max_slots i in
  capacity_ok i' ∧ max_slots i' <= top ∧
  ((∀ n, os_malloc P n = true) → max_slots i' = top).
Proof.
  intros Hcap H top. subst top.
  destruct (step_capacity _ _ _ _ _ _ Hcap H) as (Hcap' & _ & _).
  split; [done|].
  destruct (tslibWndProc_inv _ _ _ _ _ _ H) as [(Hm & -> & _) | [Hm Ht]].
  - apply Z.eqb_neq in Hm. rewrite Hm. split; [lia | done].
  - rewrite Hm, Z.eqb_refl.
    pose proof (to_uint32_range (wParam m)) as Hr.
    unfold capacity_ok, INT_MAX in *.
    destruct (touch_case_inv _ _ _ _ _ _ Hcap Ht)
      as [[Hle Hu] | [(Hlt & _ & Hu) | (Hlt & Hf & -> & _)]].
    + apply unpack_batch_fields in Hu as [-> _]. unfold contact_count. lia.
    + apply unpack_batch_fields in Hu as [-> _]. simpl. unfold INT_MAX in Hlt.
      rewrite to_int32_small by lia. unfold contact_count. lia.
    + simpl. split; [lia|]. intros Hall. rewrite Hall in Hf. done.
Qed.

(** X11: over any run of the handler the capacity never exceeds the largest
    contact count seen (or the capacity at the start), and when no
    allocation fails it is exactly that largest count. *)
Theorem capacity_is_peak ds : ∀ i i' outs,
  capacity_ok i →
  run_messages ds i = Some (i', outs) →
  max_slots i' <= peak ds (max_slots i) ∧
  (Forall (λ d, ∀ n, os_malloc d.1 n = true) ds → max_slots i' = peak ds (max_slots i)).
Proof.
  induction ds as [|[P m] ds IH]; intros i i' outs Hcap H; simpl in H.
  - injection H as <- _. simpl. split; [lia | done].
  - destruct (tslibWndProc P i m) as [[[i1 tr] res]|] eqn:Hstep; [|done]. simpl in H.
    destruct (run_messages ds i1) as [[i2 outs']|] eqn:Hrun; [|done]. simpl in H.
    injection H as <- _.
    destruct (step_peak _ _ _ _ _ _ Hcap Hstep) as (Hcap1 & Hle & Heq).
    destruct (IH _ _ _ Hcap1 Hrun) as [Hle' Heq']. simpl. split.
    + etrans; [exact Hle'|]. by apply peak_mono.
    + intros Hall. apply Forall_cons in Hall as [Hm Hall]. simpl in Hm.
      rewrite (Heq' Hall). by rewrite (Heq Hm).
Qed.

Lemma capacity_is_peak_witness :
  let five := replicate 5 (contact 1 1 TOUCHEVENTF_DOWN 7) in
  let ds := [(platform_of true (Some five), touch_message 5);
             (platform_of true (Some scenario_batch), touch_message 3)] in
  ∃ i' outs, run_messages ds initial_input = Some (i', outs) ∧ max_slots i' = 5.
Proof.
  intros five ds.
  destruct (run_messages ds initial_input) as [[i' outs]|] eqn:Hrun;
    [|vm_compute in Hrun; discriminate Hrun].
  exists i', outs. split; [reflexivity|].
  destruct (capacity_is_peak ds initial_input i' outs) as [_ Heq].
  - unfold capacity_ok, INT_MAX. simpl. lia.
  - exact Hrun.
  - rewrite Heq; [reflexivity|]. repeat constructor.
Defined.

(** X13: a growth of a non-empty buffer that fails: the message is
    forwarded to the previous procedure and its result returned, and the
    state is left with a null buffer pointer and the old capacity, which
    counts records that no longer exist.  From that state the single-point
    read, a multi-point read with [req >= 1] and the next [WM_TOUCH] batch
    that fits the capacity all go through the null buffer pointer. *)
Theorem null_buffer_after_failed_growth P i m :
  capacity_ok i →
  0 < max_slots i →
  uMsg m = WM_TOUCH →
  max_slots i < contact_count m →
  os_malloc P (contact_count m * sizeof_TOUCHINPUT) = false →
  let i' := set_buf None i in
  tslibWndProc P i m
  = Some (i', [CallWindowProc (prevWndProc i) (hwnd m) (uMsg m) (wParam m) (lParam m)],
          os_CallWindowProc P (prevWndProc i) (hwnd m) (uMsg m) (wParam m) (lParam m)) ∧
  buf i' = None ∧ max_slots i' = max_slots i ∧
  (∀ samp, ts_mswin_input_read i' samp = None) ∧
  (∀ samp req, 1 <= req → ts_mswin_input_read_mt i' samp req = None) ∧
  (∀ P' m', uMsg m' = WM_TOUCH → contact_count m' <= max_slots i →
            tslibWndProc P' i' m' = None).
Proof.
  intros Hcap Hpos Hmsg Hlt Hm i'. subst i'.
  split; [by apply alloc_failure_state|].
  split; [done|]. split; [done|].
  unfold capacity_ok, INT_MAX in Hcap. split; [|split].
  - intros samp. unfold ts_mswin_input_read. simpl.
    destruct (max_slots i =? 0) eqn:H0; [apply Z.eqb_eq in H0; lia | done].
  - intros samp req Hreq. unfold ts_mswin_input_read_mt.
    destruct (Z.to_nat req) as [|fuel] eqn:Hf; [lia|]. simpl.
    assert ((0 <? req) && (0 <? max_slots i) = true) as ->; [|done].
    apply andb_true_iff. split; apply Z.ltb_lt; lia.
  - intros P' m' Hmsg' Hle. unfold tslibWndProc, touch_case. simpl.
    rewrite Hmsg', Z.eqb_refl. fold (contact_count m').
    rewrite (to_uint32_small (max_slots i)) by lia.
    assert ((max_slots i <? contact_count m') = false) as -> by (apply Z.ltb_ge; lia).
    unfold unpack_batch. simpl.
    rewrite (to_size_t_small (max_slots i)) by lia.
    rewrite to_size_t_small by (unfold sizeof_TOUCHINPUT; lia).
    unfold memset_zero.
    assert ((max_slots i * sizeof_TOUCHINPUT =? 0) = false) as ->
      by (apply Z.eqb_neq; unfold sizeof_TOUCHINPUT; lia).
    done.
Qed.

Lemma null_buffer_after_failed_growth_witness :
  let i' := set_buf None scenario_input in
  tslibWndProc (platform_of false None) scenario_input (touch_message 10)
  = Some (i', [CallWindowProc 0 1 WM_TOUCH 10 9], 77) ∧
  max_slots i' = 3 ∧
  ts_mswin_input_read i' (mk_ts_sample 0 0 0 0 0) = None ∧
  ts_mswin_input_read_mt i' (replicate 5 blank_mt) 5 = None ∧
  tslibWndProc (platform_of true (Some scenario_batch)) i' (touch_message 3) = None.
Proof.
  intros i'.
  destruct (null_buffer_after_failed_growth (platform_of false None) scenario_input
              (touch_message 10)) as (He & _ & Hc & Hr & Hmt & Hh).
  - unfold capacity_ok, INT_MAX. simpl. lia.
  - simpl. lia.
  - reflexivity.
  - vm_compute. reflexivity.
  - reflexivity.
  - split; [exact He|]. split; [exact Hc|]. split; [apply Hr|].
    split; [apply Hmt; lia|].
    apply Hh; [reflexivity | vm_compute; discriminate].
Defined.

(** X14: a [WM_TOUCH] message whose contact count exceeds [INT_MAX] and
    whose allocation succeeds makes the capacity negative, and the [memset]
    that follows runs past the end of the new block. *)
Theorem oversized_batch_overruns P i m :
  capacity_ok i →
  uMsg m = WM_TOUCH →
  INT_MAX < contact_count m →
  os_malloc P (contact_count m * sizeof_TOUCHINPUT) = true →
  to_int32 (contact_count m) < 0 ∧ tslibWndProc P i m = None.
Proof.
  intros Hcap Hmsg Hbig Hm.
  pose proof (to_uint32_range (wParam m)) as Hr. fold (contact_count m) in Hr.
  unfold capacity_ok, INT_MAX in *. split.
  - rewrite to_int32_high by lia. lia.
  - unfold tslibWndProc, touch_case. rewrite Hmsg, Z.eqb_refl.
    fold (contact_count m).
    rewrite (to_uint32_small (max_slots i)) by lia.
    rewrite to_size_t_small by (unfold sizeof_TOUCHINPUT; lia).
    assert ((max_slots i <? contact_count m) = true) as -> by (apply Z.ltb_lt; lia).
    rewrite Hm. unfold unpack_batch. simpl.
    rewrite memset_zero_fresh_fault by (unfold INT_MAX; lia). done.
Qed.

Lemma oversized_batch_overruns_witness :
  tslibWndProc (platform_of true (Some [])) initial_input (touch_message (2 ^ 31)) = None.
Proof.
  apply (oversized_batch_overruns (platform_of true (Some [])) initial_input
           (touch_message (2 ^ 31))).
  - unfold capacity_ok, INT_MAX. simpl. lia.
  - reflexivity.
  - vm_compute. reflexivity.
  - reflexivity.
Defined.


(** * Further properties of option parsing and initialisation *)

Lemma strtoul_value_any_errno str e :
  (strtoul str e).1 = (strtoul str 0).1.
Proof.
  unfold strtoul. destruct (scan_number str) as [neg v].
  by destruct (ULONG_MAX <? v).
Qed.

Lemma strtoul_errno_kept str e :
  (strtoul str 0).2 = 0 → (strtoul str e).2 = e.
Proof.
  unfold strtoul. destruct (scan_number str) as [neg v].
  by destruct (ULONG_MAX <? v).
Qed.

Lemma strtoul_no_range_error str e :
  (strtoul str 0).2 = 0 → strtoul str e = ((strtoul str 0).1, e).
Proof.
  intros He. pose proof (strtoul_value_any_errno str e) as H1.
  pose proof (strtoul_errno_kept str e He) as H2.
  destruct (strtoul str e) as [v' e']. simpl in *. by subst.
Qed.

Lemma parse_raw_grab_below_max i str e :
  (strtoul str 0).2 = 0 →
  (strtoul str 0).1 ≠ ULONG_MAX →
  parse_raw_grab i str 1 e
  = (0, if (strtoul str 0).1 =? 0 then i else set_grab_events GRAB_EVENTS_WANTED i, e).
Proof.
  intros He Hv. unfold parse_raw_grab. rewrite strtoul_no_range_error by done.
  apply Z.eqb_neq in Hv. by rewrite Hv.
Qed.

(** X15: [parse_raw_grab] does not clear [errno] before it calls
    [strtoul].  A value below [ULONG_MAX] is accepted whatever [errno] was,
    and [errno] is as it was afterwards.  A value that is exactly
    [ULONG_MAX] without a range error is accepted when [errno] was not
    [ERANGE] on entry and rejected, with the state unchanged, when it
    was. *)
Theorem parse_raw_grab_and_errno i str :
  (strtoul str 0).2 = 0 →
  let v := (strtoul str 0).1 in
  (v ≠ ULONG_MAX →
   ∀ e, parse_raw_grab i str 1 e
        = (0, if v =? 0 then i else set_grab_events GRAB_EVENTS_WANTED i, e)) ∧
  (v = ULONG_MAX →
   (∀ e, e ≠ ERANGE →
         parse_raw_grab i str 1 e = (0, set_grab_events GRAB_EVENTS_WANTED i, e)) ∧
   parse_raw_grab i str 1 ERANGE = (-1, i, ERANGE)).
Proof.
  intros He v.
  assert (Hs : ∀ e, strtoul str e = (v, e))
    by (intros e; by apply strtoul_no_range_error).
  split.
  - intros Hv e. by apply parse_raw_grab_below_max.
  - intros Hv. split.
    + intros e Hne. unfold parse_raw_grab. rewrite Hs, Hv.
      apply Z.eqb_neq in Hne. rewrite Hne, andb_false_r. done.
    + unfold parse_raw_grab. rewrite Hs, Hv. done.
Qed.

Lemma parse_raw_grab_and_errno_witness :
  parse_raw_grab initial_input "4294967295" 1 0
  = (0, set_grab_events GRAB_EVENTS_WANTED initial_input, 0) ∧
  parse_raw_grab initial_input "4294967295" 1 ERANGE = (-1, initial_input, ERANGE).
Proof.
  destruct (parse_raw_grab_and_errno initial_input "4294967295") as [_ Hmax];
    [reflexivity|].
  destruct Hmax as [Hok Hrej]; [reflexivity|].
  split; [apply Hok; vm_compute; discriminate | exact Hrej].
Defined.

(** X16: over a sequence of [grab_events] values none of which reads as
    [ULONG_MAX] or beyond, the flag ends up enabled exactly when it was
    enabled before or some value of the sequence is not zero, in whatever
    order the values come; [errno] ends as it began. *)
Theorem grab_events_is_any_nonzero values : ∀ i errno,
  Forall (λ v, (strtoul v 0).2 = 0 ∧ (strtoul v 0).1 ≠ ULONG_MAX) values →
  (parse_grab_sequence values i errno).2 = errno ∧
  (grab_events (parse_grab_sequence values i errno).1 = GRAB_EVENTS_WANTED
   ↔ grab_events i = GRAB_EVENTS_WANTED ∨ Exists (λ v, (strtoul v 0).1 ≠ 0) values).
Proof.
  induction values as [|str rest IH]; intros i errno Hall; simpl.
  - split; [done|]. split; [by left|]. intros [? | H%Exists_nil]; done.
  - apply Forall_cons in Hall as [[He Hv] Hall].
    rewrite (parse_raw_grab_below_max i str errno He Hv).
    destruct (IH (if (strtoul str 0).1 =? 0 then i
                  else set_grab_events GRAB_EVENTS_WANTED i) errno Hall) as [IHe IHg].
    split; [done|]. rewrite IHg, Exists_cons.
    destruct ((strtoul str 0).1 =? 0) eqn:H0;
      [apply Z.eqb_eq in H0 | apply Z.eqb_neq in H0]; simpl; [tauto|].
    split; [tauto|]. intros _. by left.
Qed.

Lemma grab_events_is_any_nonzero_witness :
  grab_events (parse_grab_sequence ["0"; "0x10"; "abc"] initial_input 0).1
  = GRAB_EVENTS_WANTED.
Proof.
  apply (grab_events_is_any_nonzero ["0"; "0x10"; "abc"] initial_input 0).
  - repeat constructor; vm_compute; discriminate.
  - right. apply Exists_cons_tl, Exists_cons_hd. vm_compute. discriminate.
Defined.

Lemma parse_raw_grab_frame i str tag errno :
  (parse_raw_grab i str tag errno).1.2
  = set_grab_events (grab_events (parse_raw_grab i str tag errno).1.2) i.
Proof.
  unfold parse_raw_grab. destruct (strtoul str errno) as [v e].
  destruct ((v =? ULONG_MAX) && (e =? ERANGE)); [by destruct i|].
  destruct (to_int32 tag =? 1); [|by destruct i].
  destruct (v =? 0); by destruct i.
Qed.

Lemma parse_vars_frame params : ∀ i errno,
  (tslib_parse_vars i raw_vars params errno).1.2
  = set_grab_events (grab_events (tslib_parse_vars i raw_vars params errno).1.2) i.
Proof.
  induction params as [|[key value] rest IH]; intros i errno; simpl.
  - by destruct i.
  - rewrite decide_bool_decide.
    destruct (bool_decide ("grab_events" = key)); simpl; [|by destruct i].
    pose proof (parse_raw_grab_frame i value 1 errno) as Hf.
    destruct (parse_raw_grab i value 1 errno) as [[ret i1] e1]. simpl in Hf.
    destruct (ret =? 0); simpl; [|done].
    rewrite IH. rewrite Hf at 2. by destruct i.
Qed.

(** X17: a module that initialisation returns has no buffer and capacity
    0, whatever options were accepted: both reads return 0 and leave the
    caller's samples alone, the window's user data and procedure were set in
    that order, and a message other than [WM_TOUCH] goes to the window
    procedure that initialisation replaced. *)
Theorem init_state alloc_ok fd old_proc params errno i tr :
  wmtouch_mod_init alloc_ok fd old_proc params errno = (Some i, tr) →
  tr = [SetWindowLongPtr_USERDATA fd; SetWindowLongPtr_WNDPROC fd] ∧
  buffer_ok i ∧ buf i = None ∧ max_slots i = 0 ∧ prevWndProc i = old_proc ∧
  (∀ samp, ts_mswin_input_read i samp = Some (samp, 0)) ∧
  (∀ samp req, ts_mswin_input_read_mt i samp req = Some (samp, 0)) ∧
  (∀ P m, uMsg m ≠ WM_TOUCH →
     tslibWndProc P i m
     = Some (i, [CallWindowProc old_proc (hwnd m) (uMsg m) (wParam m) (lParam m)],
             os_CallWindowProc P old_proc (hwnd m) (uMsg m) (wParam m) (lParam m))).
Proof.
  unfold wmtouch_mod_init. intros H. destruct alloc_ok; [|done].
  pose proof (parse_vars_frame params initial_input errno) as Hf.
  destruct (tslib_parse_vars initial_input raw_vars params errno) as [[ret i1] e1].
  simpl in Hf. destruct (ret =? 0); [|done]. injection H as <- <-.
  rewrite Hf. split; [done|].
  split; [split; [unfold INT_MAX; simpl; lia | done]|].
  split; [done|]. split; [done|]. split; [done|]. split; [done|]. split.
  - intros samp req. unfold ts_mswin_input_read_mt.
    destruct (Z.to_nat req); simpl; by rewrite andb_false_r.
  - intros P m Hm. unfold tslibWndProc. apply Z.eqb_neq in Hm. by rewrite Hm.
Qed.

Lemma init_state_witness :
  ∃ i, wmtouch_mod_init true 5 6 [("grab_events", "1")] 0
       = (Some i, [SetWindowLongPtr_USERDATA 5; SetWindowLongPtr_WNDPROC 5]) ∧
       ts_mswin_input_read i (mk_ts_sample 1 2 3 4 5) = Some (mk_ts_sample 1 2 3 4 5, 0) ∧
       prevWndProc i = 6.
Proof.
  eexists. split; [reflexivity|].
  destruct (init_state true 5 6 [("grab_events", "1")] 0 _ _ eq_refl)
    as (_ & _ & _ & _ & Hp & Hr & _).
  split; [apply Hr | exact Hp].
Defined.

(** * Where the code departs from the specified reads and dispatch *)

(** A message that is not [WM_TOUCH] is forwarded from every state, with
    the state unchanged. *)
Lemma handler_forwards_other_messages P i m :
  uMsg m ≠ WM_TOUCH →
  tslibWndProc P i m
  = Some (i, [CallWindowProc (prevWndProc i) (hwnd m) (uMsg m) (wParam m) (lParam m)],
          os_CallWindowProc P (prevWndProc i) (hwnd m) (uMsg m) (wParam m) (lParam m)).
Proof.
  intros Hm. unfold tslibWndProc. apply Z.eqb_neq in Hm. by rewrite Hm.
Qed.

(** C3: the single-point read where it departs from the claim.  A moving
    contact stamped 2999 ms is stored with 2 seconds and 2999000
    microseconds, not 999000.  After a growth of a two-record buffer has
    failed, the capacity is still 2 but the buffer pointer is null, and the
    read goes through it instead of returning 1. *)
Theorem read_single_point_departures :
  let i1 := set_max_slots 1
              (set_buf (Some [contact 7 9 TOUCHEVENTF_MOVE 2999]) initial_input) in
  let i2 := set_max_slots 2
              (set_buf (Some [contact 1 2 TOUCHEVENTF_DOWN 5;
                              contact 3 4 TOUCHEVENTF_DOWN 5]) initial_input) in
  ts_mswin_input_read i1 (mk_ts_sample 0 0 0 0 0)
  = Some (mk_ts_sample 7 9 0 2 2999000, 1)
  ∧ tslibWndProc (platform_of false None) i2 (touch_message 4)
    = Some (set_buf None i2, [CallWindowProc 0 1 WM_TOUCH 4 9], 77)
  ∧ max_slots (set_buf None i2) = 2
  ∧ ts_mswin_input_read (set_buf None i2) (mk_ts_sample 0 0 0 0 0) = None.
Proof. repeat split; reflexivity. Qed.

(** C8: the handler where it departs from the claim.  A growth from two to
    ten records fails and the message is forwarded; the state keeps
    capacity 2 with a null buffer pointer.  The next [WM_TOUCH] message that
    fits that capacity is neither forwarded nor answered: the handler clears
    two records through the null pointer, whether the platform would unpack
    the batch or not. *)
Theorem handler_faults_on_stale_capacity :
  let i := set_max_slots 2
             (set_buf (Some [contact 1 2 TOUCHEVENTF_DOWN 5;
                             contact 3 4 TOUCHEVENTF_DOWN 5]) initial_input) in
  tslibWndProc (platform_of false None) i (touch_message 10)
  = Some (set_buf None i, [CallWindowProc 0 1 WM_TOUCH 10 9], 77)
  ∧ tslibWndProc (platform_of true (Some [contact 5 6 TOUCHEVENTF_DOWN 9]))
      (set_buf None i) (touch_message 1) = None
  ∧ tslibWndProc (platform_of true None) (set_buf None i) (touch_message 2) = None
  ∧ run_messages [(platform_of false None, touch_message 10);
                  (platform_of true None, touch_message 2)] i = None.
Proof. repeat split; reflexivity. Qed.
